(** * sparkdl.transformers.tf_text: the text-to-embedding-matrix encoder

    A shallow embedding of [TFTextTransformer._transform]
    (python/sparkdl/transformers/tf_text.py) and of its nested helpers
    [convert_word_to_index] and [_pad_sequences], together with the parts
    of Python, NumPy and Spark SQL that these functions call.

    Conventions.
    - A Python [int] is a [Z]; a Python [float] is a binary64 [float].
    - A [str] is a [string]; every character stands for one code point.
    - A raised exception is [None] in the [option] monad.
    - A [dict] with string keys is a [gmap string _]. *)

From Stdlib Require Import ZArith Ascii PrimFloat SpecFloat FloatOps.
From stdpp Require Import gmap strings list fin_maps.

Local Open Scope Z_scope.
Local Set Warnings "-register-all,-clear-no-such-hyp".

(** A word vector, [p.vector.values.tolist()]: a list of floats. *)
Abbreviation vector := (list float).
(** [word_embedding]: the dict from word to vector. *)
Abbreviation vocabulary := (gmap string (list float)).

(** ** Python built-ins *)
Module Py.

(** The character class [\s] of [re] for a [str] pattern: the code points
    for which [str.isspace] holds, here those below 256
    (TAB..CR, FS..US, SPACE, NEL, NBSP). *)
Definition is_space (c : ascii) : bool :=
  let n := Z.of_N (N_of_ascii c) in
  ((9 <=? n) && (n <=? 13)) || ((28 <=? n) && (n <=? 32))
  || (n =? 133) || (n =? 160).

(** [re.split(r"\s+", s)]: the pieces of [s] between the maximal runs of
    whitespace.  The list is never empty; a leading (trailing) run leaves
    an empty first (last) piece, and the empty string gives one empty
    piece.
    The head of the result is the piece that starts at the current
    position: a whitespace character that opens a run closes that piece
    (as the empty string); the other characters of the run are skipped. *)
Fixpoint re_split (s : string) : list string :=
  match s with
  | EmptyString => [EmptyString]
  | String c s' =>
      if is_space c then
        match s' with
        | String c' _ => if is_space c' then re_split s' else EmptyString :: re_split s'
        | EmptyString => EmptyString :: re_split s'
        end
      else
        match re_split s' with
        | w :: ws => String c w :: ws
        | [] => [String c EmptyString]
        end
  end.

(** [xs[0:stop]]: a negative [stop] counts from the end; the bounds are
    clipped to the list. *)
Definition slice_to {A} (xs : list A) (stop : Z) : list A :=
  let n := Z.of_nat (length xs) in
  let stop' := if stop <? 0 then Z.max 0 (n + stop) else Z.min stop n in
  take (Z.to_nat stop') xs.

(** [dict(pairs)]: the pairs are inserted from left to right, a later pair
    replacing an earlier one with the same key. *)
Definition dict {V} (pairs : list (string * V)) : gmap string V :=
  foldl (fun d p => <[p.1 := p.2]> d) ∅ pairs.

(** A value built from floats and lists, as [ndarray.tolist()] returns. *)
Inductive value :=
  | Float (x : float)
  | List (xs : list value).

(** A list of lists of floats as a [value]. *)
Definition of_rows (rows : list (list float)) : value :=
  List (map (fun r => List (map Float r)) rows).

End Py.

(** ** NumPy *)
Module Np.

(** An array: its shape and its elements in C (row-major) order. *)
Record ndarray := { nd_shape : list Z; nd_data : list float }.

Definition size (a : ndarray) : Z := Z.of_nat (length (nd_data a)).

(** [np.zeros(n).tolist()]; a negative [n] raises [ValueError]. *)
Definition zeros (n : Z) : option (list float) :=
  if n <? 0 then None else Some (repeat 0%float (Z.to_nat n)).

(** [np.array(rows)] for a list of lists of floats: a two-dimensional
    array when the rows have one length, the empty one-dimensional array
    for [[]]; rows of different lengths raise [ValueError]. *)
Definition array (rows : list (list float)) : option ndarray :=
  match rows with
  | [] => Some {| nd_shape := [0]; nd_data := [] |}
  | r :: _ =>
      if forallb (fun r' => Nat.eqb (length r') (length r)) rows
      then Some {| nd_shape := [Z.of_nat (length rows); Z.of_nat (length r)];
                   nd_data := concat rows |}
      else None
  end.

(** The product of the non-negative entries of a shape. *)
Definition known_size (newshape : list Z) : Z :=
  foldr Z.mul 1 (filter (fun d => 0 <= d) newshape).

(** The shape [reshape] settles on: at most one entry may be negative
    (documented as [-1]) and is inferred from the array's size; without
    one the sizes must agree.  Everything else raises [ValueError]. *)
Definition fix_unknown_dimension (newshape : list Z) (s_original : Z)
  : option (list Z) :=
  let s_known := known_size newshape in
  match filter (fun d => d < 0) newshape with
  | [] => if s_known =? s_original then Some newshape else None
  | [_] =>
      if (s_known =? 0) || negb (s_original mod s_known =? 0) then None
      else Some (map (fun d => if d <? 0 then s_original / s_known else d) newshape)
  | _ => None
  end.

(** [a.reshape(newshape)]: the same elements, in the same order, under
    the new shape. *)
Definition reshape (a : ndarray) (newshape : list Z) : option ndarray :=
  dims ← fix_unknown_dimension newshape (size a);
  Some {| nd_shape := dims; nd_data := nd_data a |}.

(** [tolist] on the elements [data] of an array of shape [shape]: a float
    for the empty shape (such an array has one element), else one nested
    list per index of the first axis, each over its own stretch of
    [data]. *)
Fixpoint tolist_aux (shape : list Z) (data : list float) : Py.value :=
  match shape with
  | [] => Py.Float (default 0%float (head data))
  | n :: rest =>
      let k := Z.to_nat (foldr Z.mul 1 rest) in
      Py.List (map (fun i => tolist_aux rest (take k (drop (i * k)%nat data)))
                   (seq 0 (Z.to_nat n)))
  end.

Definition tolist (a : ndarray) : Py.value := tolist_aux (nd_shape a) (nd_data a).

End Np.

(** ** TFTextTransformer *)

(** The params of a [TFTextTransformer] that [_transform] reads.
    [HasEmbeddingSize] and [HasSequenceLength] are declared in
    [sparkdl.param.shared_params]; both hold a Python [int]. *)
Record TFTextTransformer := {
  inputCol : string;
  outputCol : string;
  shape : list Z;
  embeddingSize : Z;
  sequenceLength : Z
}.

Definition getInputCol := inputCol.
Definition getOutputCol := outputCol.
Definition getShape := shape.
Definition getEmbeddingSize := embeddingSize.
Definition getSequenceLength := sequenceLength.

Definition VOCAB_SIZE : string := "vocab_size".
Definition EMBEDDING_SIZE : string := "embedding_size".

(** Line 151:
    [len(self.getShape()) != 2 or self.getShape()[0] != self.getSequenceLength()]. *)
Definition not_array_2d (self : TFTextTransformer) : bool :=
  negb (Nat.eqb (length (getShape self)) 2)
  || match getShape self with
     | d0 :: _ => negb (d0 =? getSequenceLength self)
     | [] => true
     end.

(** The vector that [np.zeros(self.getEmbeddingSize()).tolist()] returns
    for an embedding size that is not negative. *)
Definition zero_vector (self : TFTextTransformer) : list float :=
  repeat 0%float (Z.to_nat (getEmbeddingSize self)).

(** The loop of [_pad_sequences]: [n] times
    [new_sequences.append(np.zeros(self.getEmbeddingSize()).tolist())]. *)
Fixpoint pad_loop (self : TFTextTransformer) (n : nat)
    (new_sequences : list (list float)) : option (list (list float)) :=
  match n with
  | O => Some new_sequences
  | S n' =>
      z ← Np.zeros (getEmbeddingSize self);
      pad_loop self n' (new_sequences ++ [z])
  end.

(** Lines 154-162. [range(k)] is empty for [k <= 0]. *)
Definition _pad_sequences (self : TFTextTransformer)
    (sequences : list (list float)) (maxlen : Z) : option (list (list float)) :=
  if Z.of_nat (length sequences) <=? maxlen then
    new_sequences ← pad_loop self (Z.to_nat (maxlen - Z.of_nat (length sequences))) [];
    Some (sequences ++ new_sequences)
  else Some (Py.slice_to sequences maxlen).

(** [word in local_word_embedding.value.keys()]. *)
Definition in_keys (d : vocabulary) (word : string) : bool :=
  bool_decide (is_Some (d !! word)).

(** Lines 164-165, over the tokens:
    [[d[word] for word in tokens if word in d.keys()]].  Every word that
    passes the filter is a key, so [d[word]] never falls back to [[]]. *)
Definition lookup_words (d : vocabulary) (tokens : list string) : list (list float) :=
  map (fun word => default [] (d !! word)) (filter (fun word => in_keys d word) tokens).

(** [new_q], lines 164-165. *)
Definition new_q (local_word_embedding : vocabulary) (s : string) : list (list float) :=
  lookup_words local_word_embedding (Py.re_split s).

(** [result] after line 166: the looked-up vectors, padded or truncated. *)
Definition padded (self : TFTextTransformer) (local_word_embedding : vocabulary)
    (s : string) : option (list (list float)) :=
  _pad_sequences self (new_q local_word_embedding s) (getSequenceLength self).

(** Line 168: [np.array(result).reshape(self.getShape()).tolist()]. *)
Definition reshape_result (self : TFTextTransformer) (result : list (list float))
  : option Py.value :=
  a ← Np.array result;
  a' ← Np.reshape a (getShape self);
  Some (Np.tolist a').

(** Lines 153-169. *)
Definition convert_word_to_index (self : TFTextTransformer)
    (local_word_embedding : vocabulary) (s : string) : option Py.value :=
  result ← padded self local_word_embedding s;
  if not_array_2d self then reshape_result self result
  else Some (Py.of_rows result).

(** Lines 145-148: the vocabulary, from the pairs
    [(p.word, p.vector.values.tolist())] that the fitted Word2Vec model
    hands back, with the entry for ["unk"] set last. *)
Definition word_embedding (self : TFTextTransformer)
    (vectors : list (string * list float)) : option vocabulary :=
  unk ← Np.zeros (getEmbeddingSize self);
  Some (<["unk" := unk]> (Py.dict vectors)).


(** ** Spark SQL *)
Module Spark.

(** The return type of a udf: [FloatType()], or [ArrayType] of a type. *)
Inductive DataType :=
  | FloatType
  | ArrayType (elementType : DataType).

(** A value of such a type: null, a float of 32 bits, or an array. *)
Inductive data :=
  | DNull
  | DFloat (x : float)
  | DArray (xs : list data).

(** The value of one column in one row.  [Failed] stands for a udf call
    that raised: the job fails when the row is computed. *)
Inductive cell :=
  | Null
  | Str (s : string)
  | Int (n : Z)
  | Array (v : data)
  | Failed.

(** A Python float stored under [FloatType]: the nearest float of 32
    bits (ties to even, overflow to infinity), kept as the binary64
    float of the same value. *)
Definition to_float32 (x : float) : float :=
  SF2Prim (match Prim2SF x with
           | S754_finite sx mx ex => binary_round 24 128 sx mx ex
           | other => other
           end).

(** What Spark stores for the Python value [v] returned by a udf of
    return type [t]: a list under an array type element by element, a
    float under [FloatType] narrowed to 32 bits, and null for a value
    that does not fit the type. *)
Fixpoint fromPython (t : DataType) (v : Py.value) : data :=
  match t, v with
  | FloatType, Py.Float x => DFloat (to_float32 x)
  | ArrayType elementType, Py.List xs => DArray (map (fromPython elementType) xs)
  | _, _ => DNull
  end.

(** A value as a cell. *)
Definition cell_of_data (v : data) : cell :=
  match v with
  | DNull => Null
  | _ => Array v
  end.

(** A DataFrame: the names of its columns, and its rows, each with one
    cell per column, in the order of the columns. *)
Record DataFrame := { columns : list string; rows : list (list cell) }.

(** Every row has a cell for every column. *)
Definition well_formed (df : DataFrame) : Prop :=
  Forall (fun r => length r = length (columns df)) (rows df).

(** A column expression, evaluated on a row. *)
Abbreviation Column := (list cell -> cell).

(** The parts of a column name given as a string
    ([UnresolvedAttribute.parseAttributeName]): dots separate the parts,
    a part between backquotes is taken as it is written; [prev] is the
    character before [name], [tmp] the part being read.  A malformed
    name raises [AnalysisException]. *)
Fixpoint parseAttributeName_from (prev : option ascii) (inBacktick : bool)
    (tmp : string) (nameParts : list string) (name : string) : option (list string) :=
  match name with
  | EmptyString => if inBacktick then None else Some (nameParts ++ [tmp])
  | String char rest =>
      if inBacktick then
        if Ascii.eqb char "`" then
          match rest with
          | String next _ =>
              if Ascii.eqb next "." then
                parseAttributeName_from (Some char) false tmp nameParts rest
              else None
          | EmptyString => parseAttributeName_from (Some char) false tmp nameParts rest
          end
        else parseAttributeName_from (Some char) true (tmp +:+ String char EmptyString)
               nameParts rest
      else if Ascii.eqb char "`" then
        match tmp with
        | EmptyString => parseAttributeName_from (Some char) true tmp nameParts rest
        | String _ _ => None
        end
      else if Ascii.eqb char "." then
        match prev, rest with
        | Some p, String _ _ =>
            if Ascii.eqb p "." then None
            else parseAttributeName_from (Some char) false EmptyString
                   (nameParts ++ [tmp]) rest
        | _, _ => None
        end
      else parseAttributeName_from (Some char) false (tmp +:+ String char EmptyString)
             nameParts rest
  end.

Definition parseAttributeName (name : string) : option (list string) :=
  parseAttributeName_from None false EmptyString [] name.

Section Resolver.

(** How the session compares column names
    ([spark.sql.caseSensitive]: exactly, or ignoring case). *)
Variable resolver : string -> string -> bool.

(** The index of the column that a name given as a string refers to.
    The name is parsed first; a name of one part refers to the column it
    matches, and a name that matches no column, or several, raises
    [AnalysisException].  The model has no nested fields, no qualified
    columns and no star: a name of several parts and the name [*] raise
    too. *)
Definition resolve (df : DataFrame) (colName : string) : option nat :=
  if String.eqb colName "*" then None
  else
    match parseAttributeName colName with
    | Some [name] =>
        match filter (fun p => resolver p.2 name = true)
                     (zip (seq 0%nat (length (columns df))) (columns df)) with
        | [p] => Some p.1
        | _ => None
        end
    | _ => None
    end.

(** [df.withColumn(colName, col)]: the columns that [colName] matches are
    replaced (and take the new name); when there is none the column is
    added at the end. *)
Definition withColumn (df : DataFrame) (colName : string) (col : Column) : DataFrame :=
  if existsb (fun f => resolver f colName) (columns df) then
    {| columns := map (fun f => if resolver f colName then colName else f) (columns df);
       rows := map (fun r => zip_with (fun f c => if resolver f colName then col r else c)
                                      (columns df) r) (rows df) |}
  else
    {| columns := columns df ++ [colName];
       rows := map (fun r => r ++ [col r]) (rows df) |}.

End Resolver.

(** [lit(c)]: the same value on every row. *)
Definition lit (c : cell) : Column := fun _ => c.

(** [udf(f, returnType)(col)], for the column at index [i]: [f] applied
    to the string of that column, and its result stored under
    [returnType]; a null or a value that is no string makes [f] raise,
    like an exception inside [f]. *)
Definition udf (f : string -> option Py.value) (returnType : DataType) (i : nat) : Column :=
  fun r =>
    match r !! i with
    | Some (Str s) =>
        match f s with
        | Some v => cell_of_data (fromPython returnType v)
        | None => Failed
        end
    | _ => Failed
    end.

End Spark.

(** The number of distinct words among the trained pairs. *)
Definition distinct_words (vectors : list (string * list float)) : nat :=
  length (remove_dups (vectors.*1)).

(** Lines 171-174: the udf of the encoder, of return type
    [ArrayType(FloatType())] when the result is reshaped and
    [ArrayType(ArrayType(FloatType()))] when it is not, on the column at
    index [i]. *)
Definition cwti_udf (self : TFTextTransformer) (word_embedding : vocabulary) (i : nat)
  : Spark.Column :=
  Spark.udf (convert_word_to_index self word_embedding)
    (if not_array_2d self then Spark.ArrayType Spark.FloatType
     else Spark.ArrayType (Spark.ArrayType Spark.FloatType)) i.

(** Lines 145-181, and the resolution of the input column.  [vectors] is
    what
    [vectorsDf.rdd.map(lambda p: (p.word, p.vector.values.tolist())).collect()]
    returns for the Word2Vec model fitted on the tokenised input column;
    tokenising and fitting (lines 115-134) are the work of jieba and
    Spark ML and may raise on their own account, so the source returns
    in no more cases than this function. *)
Definition _transform (resolver : string -> string -> bool) (self : TFTextTransformer)
    (vectors : list (string * list float)) (dataset : Spark.DataFrame)
  : option Spark.DataFrame :=
  i ← Spark.resolve resolver dataset (getInputCol self);
  word_embedding ← word_embedding self vectors;
  let doc_martic :=
    Spark.withColumn resolver
      (Spark.withColumn resolver
         (Spark.withColumn resolver dataset (getOutputCol self)
            (cwti_udf self word_embedding i))
         VOCAB_SIZE (Spark.lit (Spark.Int (Z.of_nat (size word_embedding)))))
      EMBEDDING_SIZE (Spark.lit (Spark.Int (getEmbeddingSize self))) in
  Some doc_martic.

(** ** The encoder on a store of list objects *)

(** The vectors of the vocabulary are Python list objects.  The
    comprehension of lines 164-165 puts references to these objects into
    [new_q], [np.zeros(...).tolist()] makes a new list object at every
    call, and without the reshape the encoder returns the references.
    The store holds the floats of every list object; the reference of an
    object is its index, and a new object gets the next index. *)
Abbreviation store := (list (list float)).

(** The loop of [_pad_sequences], on the store. *)
Fixpoint pad_loop_store (self : TFTextTransformer) (n : nat)
    (new_sequences : list nat) (h : store) : option (list nat * store) :=
  match n with
  | O => Some (new_sequences, h)
  | S n' =>
      z ← Np.zeros (getEmbeddingSize self);
      pad_loop_store self n' (new_sequences ++ [length h]) (h ++ [z])
  end.

(** Lines 154-162, on the store: the references of the result, and the
    store with the new zero vectors. *)
Definition _pad_sequences_store (self : TFTextTransformer)
    (sequences : list nat) (maxlen : Z) (h : store) : option (list nat * store) :=
  if Z.of_nat (length sequences) <=? maxlen then
    p ← pad_loop_store self (Z.to_nat (maxlen - Z.of_nat (length sequences))) [] h;
    Some (sequences ++ p.1, p.2)
  else Some (Py.slice_to sequences maxlen, h).

(** Lines 164-165, over the tokens, for a vocabulary of references. *)
Definition lookup_refs (d : gmap string nat) (tokens : list string) : list nat :=
  omap (fun word => d !! word) tokens.

(** The floats of the list objects at the references [rs]. *)
Fixpoint deref (h : store) (rs : list nat) : option (list (list float)) :=
  match rs with
  | [] => Some []
  | r :: rs' =>
      v ← h !! r;
      vs ← deref h rs';
      Some (v :: vs)
  end.

(** What a call returns: a list of references to list objects, or,
    after the reshape, a value that [tolist] has built anew. *)
Inductive returned :=
  | Refs (rs : list nat)
  | Value (v : Py.value).

(** Lines 153-169, on the store: what the call returns, and the store
    after the call.  [np.array(result)] reads the list objects. *)
Definition convert_word_to_index_store (self : TFTextTransformer)
    (d : gmap string nat) (s : string) (h : store) : option (returned * store) :=
  let new_q := lookup_refs d (Py.re_split s) in
  p ← _pad_sequences_store self new_q (getSequenceLength self) h;
  if not_array_2d self then
    rows ← deref p.2 p.1;
    v ← reshape_result self rows;
    Some (Value v, p.2)
  else Some (Refs p.1, p.2).

(** The value that a returned result has in a store. *)
Definition value_of (h : store) (out : returned) : option Py.value :=
  match out with
  | Refs rs => rows ← deref h rs; Some (Py.of_rows rows)
  | Value v => Some v
  end.

(** Every reference of the vocabulary is a list object of the store. *)
Definition valid_refs (h : store) (d : gmap string nat) : Prop :=
  forall word r, d !! word = Some r -> (r < length h)%nat.

(** The vocabulary as a dict of vectors: the floats at each reference. *)
Definition vocabulary_of (h : store) (d : gmap string nat) : vocabulary :=
  omap (fun r => h !! r) d.

(** ** The configuration of the spec's examples *)
Module Sample.

Definition cat : list float := [1; 0; 0; 0]%float.
Definition dog : list float := [0; 1; 0; 0]%float.
Definition zero4 : list float := [0; 0; 0; 0]%float.

(** Embedding size 4, sequence length 3, the shape left at (3, 4). *)
Definition self : TFTextTransformer :=
  {| inputCol := "text"; outputCol := "out"; shape := [3; 4];
     embeddingSize := 4; sequenceLength := 3 |}.

(** The word vectors of the example. *)
Definition vectors : list (string * list float) := [("cat", cat); ("dog", dog)].

(** The vocabulary [{"cat": [1,0,0,0], "dog": [0,1,0,0]}]. *)
Definition vocabulary0 : vocabulary := Py.dict vectors.

(** The vocabulary that [_transform] builds from [vectors]. *)
Definition vocabulary_unk : vocabulary := <["unk" := zero4]> vocabulary0.

(** Embedding size 2, sequence length 4. *)
Definition self_4x2 (shape : list Z) : TFTextTransformer :=
  {| inputCol := "text"; outputCol := "out"; shape := shape;
     embeddingSize := 2; sequenceLength := 4 |}.

(** A vocabulary of vectors of two components. *)
Definition vocabulary_2 : vocabulary :=
  Py.dict [("a", [1; 2]%float); ("b", [3; 4]%float)].

(** Trained pairs of a corpus in which the word "unk" occurs. *)
Definition vectors_unk : list (string * list float) := [("cat", cat); ("unk", dog)].

(** The sample transformer, writing its output to a column "vocab_size". *)
Definition self_clash : TFTextTransformer :=
  {| inputCol := "text"; outputCol := "vocab_size"; shape := [3; 4];
     embeddingSize := 4; sequenceLength := 3 |}.

(** Rows of floats as an array of arrays. *)
Definition matrix (rows : list (list float)) : Spark.data :=
  Spark.DArray (map (fun r => Spark.DArray (map Spark.DFloat r)) rows).

(** A store with the two vectors of the example, and the vocabulary of
    their references. *)
Definition store0 : store := [cat; dog].
Definition vocabulary_refs : gmap string nat := <["dog" := 1%nat]> (<["cat" := 0%nat]> ∅).

(** A dataset of one text column and two rows. *)
Definition dataset : Spark.DataFrame :=
  {| Spark.columns := ["text"];
     Spark.rows := [[Spark.Str "cat dog bird"]; [Spark.Str "cat dog cat dog"]] |}.

End Sample.

(** ** String methods and the flattening of a nested list *)
Module PyStr.

(** [c.lower()] for a code point below 256: the letters A..Z and the
    capital letters of Latin-1 (all of 192..222 but the sign at 215). *)
Definition lower_char (c : ascii) : ascii :=
  let n := Z.of_N (N_of_ascii c) in
  if ((65 <=? n) && (n <=? 90)) || ((192 <=? n) && (n <=? 222) && negb (n =? 215))
  then ascii_of_N (Z.to_N (n + 32))
  else c.

(** [s.lower()]. *)
Fixpoint lower (s : string) : string :=
  match s with
  | EmptyString => EmptyString
  | String c s' => String (lower_char c) (lower s')
  end.

(** [s.startswith(prefix)]. *)
Fixpoint startswith (s prefix : string) : bool :=
  match prefix, s with
  | EmptyString, _ => true
  | String p prefix', String c s' => Ascii.eqb c p && startswith s' prefix'
  | String _ _, EmptyString => false
  end.

(** Whether some character of [s] is whitespace. *)
Fixpoint has_space (s : string) : bool :=
  match s with
  | EmptyString => false
  | String c s' => Py.is_space c || has_space s'
  end.

(** The floats of a nested list, in the order they are written. *)
Fixpoint flatten (v : Py.value) : list float :=
  match v with
  | Py.Float x => [x]
  | Py.List xs => concat (map flatten xs)
  end.

End PyStr.

(** ** The params of the transformer *)

(** A param map of a [TFTextTransformer]: for every param its value, or
    nothing. *)
Record param_map := {
  pm_inputCol : option string;
  pm_outputCol : option string;
  pm_textAnalysisParams : option (gmap string string);
  pm_shape : option (list Z);
  pm_embeddingSize : option Z;
  pm_sequenceLength : option Z
}.

Definition no_params : param_map :=
  {| pm_inputCol := None; pm_outputCol := None; pm_textAnalysisParams := None;
     pm_shape := None; pm_embeddingSize := None; pm_sequenceLength := None |}.

(** The entries of [kwargs], and those of [base] for the params that
    [kwargs] leaves out. *)
Definition update_params (kwargs base : param_map) : param_map :=
  let pick {A} (p : param_map -> option A) :=
    match p kwargs with Some v => Some v | None => p base end in
  {| pm_inputCol := pick pm_inputCol; pm_outputCol := pick pm_outputCol;
     pm_textAnalysisParams := pick pm_textAnalysisParams; pm_shape := pick pm_shape;
     pm_embeddingSize := pick pm_embeddingSize;
     pm_sequenceLength := pick pm_sequenceLength |}.

(** The state of a [Params] object: [self._paramMap] and
    [self._defaultParamMap]. *)
Record Params := { _paramMap : param_map; _defaultParamMap : param_map }.

(** [self._set], called with the keyword arguments [kwargs]. *)
Definition _set (kwargs : param_map) (self : Params) : Params :=
  {| _paramMap := update_params kwargs (_paramMap self);
     _defaultParamMap := _defaultParamMap self |}.

(** [self._setDefault], called with the keyword arguments [kwargs]. *)
Definition _setDefault (kwargs : param_map) (self : Params) : Params :=
  {| _paramMap := _paramMap self;
     _defaultParamMap := update_params kwargs (_defaultParamMap self) |}.

(** [self.getOrDefault(param)]: the value set by the user, else the
    default; a param with neither raises [KeyError]. *)
Definition getOrDefault {A} (param : param_map -> option A) (self : Params) : option A :=
  match param (_paramMap self) with
  | Some v => Some v
  | None => param (_defaultParamMap self)
  end.

(** Lines 106-110; [kwargs] holds the keyword arguments of the call. *)
Definition setParams (kwargs : param_map) (self : Params) : Params := _set kwargs self.

(** Lines 89-90 and 80-81. *)
Definition setShape (value : list Z) (self : Params) : Params :=
  _set {| pm_inputCol := None; pm_outputCol := None; pm_textAnalysisParams := None;
          pm_shape := Some value; pm_embeddingSize := None;
          pm_sequenceLength := None |} self.

(** Lines 95-104; [kwargs] holds the keyword arguments of the call. *)
Definition __init__ (kwargs : param_map) : option Params :=
  let self := {| _paramMap := no_params; _defaultParamMap := no_params |} in
  let self := _setDefault {| pm_inputCol := None; pm_outputCol := None;
                             pm_textAnalysisParams := Some ∅; pm_shape := None;
                             pm_embeddingSize := None; pm_sequenceLength := None |} self in
  let self := _setDefault {| pm_inputCol := None; pm_outputCol := None;
                             pm_textAnalysisParams := None; pm_shape := None;
                             pm_embeddingSize := Some 100; pm_sequenceLength := None |} self in
  let self := _setDefault {| pm_inputCol := None; pm_outputCol := None;
                             pm_textAnalysisParams := None; pm_shape := None;
                             pm_embeddingSize := None; pm_sequenceLength := Some 64 |} self in
  sequenceLength ← getOrDefault pm_sequenceLength self;
  embeddingSize ← getOrDefault pm_embeddingSize self;
  let self := _setDefault {| pm_inputCol := None; pm_outputCol := None;
                             pm_textAnalysisParams := None;
                             pm_shape := Some [sequenceLength; embeddingSize];
                             pm_embeddingSize := None; pm_sequenceLength := None |} self in
  Some (setParams kwargs self).


(** ** The dictionary archives, lines 118-126 *)

(** Line 118; [conf] is [sc._conf].  [conf.get] gives [None] for a key
    that is not set, and [None.lower()] raises. *)
Definition archiveAutoExtract (conf : gmap string string) : option bool :=
  master ← conf !! "spark.master";
  Some (PyStr.startswith (PyStr.lower master) "yarn").

(** Lines 119-124: the value of [zipfiles] after line 124.  [sc._conf]
    is a [SparkConf], which is no container: the class defines neither
    [__contains__] nor [__iter__] nor [__getitem__], so the test
    ["spark.files" in sc._conf] of line 122 raises [TypeError] whenever
    it is reached, and lines 123-124 never run. *)
Definition zipfiles (conf textAnalysisParams : gmap string string) : option (list string) :=
  archiveAutoExtract ← archiveAutoExtract conf;
  let zipfiles := [] in
  if negb archiveAutoExtract && bool_decide (is_Some (textAnalysisParams !! "dicZipName"))
  then None
  else Some zipfiles.

(** Line 126. *)
Definition dicDir (textAnalysisParams : gmap string string) : string :=
  default EmptyString (textAnalysisParams !! "dicDir").

(** ** More sample inputs *)
Module Sample2.

(** [TFTextTransformer(inputCol="text", outputCol="out", embeddingSize=4,
    sequenceLength=3)]: no shape is given. *)
Definition kwargs : param_map :=
  {| pm_inputCol := Some "text"; pm_outputCol := Some "out";
     pm_textAnalysisParams := None; pm_shape := None;
     pm_embeddingSize := Some 4; pm_sequenceLength := Some 3 |}.

(** The transformer that the getters show after [__init__ kwargs]. *)
Definition self_default_shape : TFTextTransformer :=
  {| inputCol := "text"; outputCol := "out"; shape := [64; 100];
     embeddingSize := 4; sequenceLength := 3 |}.

(** A local master with two shipped files. *)
Definition conf : gmap string string :=
  <["spark.files" := "hdfs://nn/lib/dic.zip,/tmp/notes.txt"]>
    (<["spark.master" := "local[2]"]> ∅).

Definition textAnalysisParams : gmap string string :=
  <["dicZipName" := "dic"]> ∅.

(** The sample transformer with a negative sequence length. *)
Definition self_negative : TFTextTransformer :=
  {| inputCol := "text"; outputCol := "out"; shape := [3; 4];
     embeddingSize := 4; sequenceLength := -1 |}.

(** The sample transformer with a negative embedding size. *)
Definition self_negative_size : TFTextTransformer :=
  {| inputCol := "text"; outputCol := "out"; shape := [3; 4];
     embeddingSize := -4; sequenceLength := 3 |}.

(** The sample transformer with the shape (2, 6). *)
Definition self_2x6 : TFTextTransformer :=
  {| inputCol := "text"; outputCol := "out"; shape := [2; 6];
     embeddingSize := 4; sequenceLength := 3 |}.

End Sample2.

(** * Properties *)

(** ** The spec's examples, and the edge cases of [re.split] *)

Example re_split_words : Py.re_split "cat dog bird" = ["cat"; "dog"; "bird"].
Proof. reflexivity. Qed.

Example re_split_runs : Py.re_split "cat   dog" = ["cat"; "dog"].
Proof. reflexivity. Qed.

Example re_split_empty : Py.re_split "" = [""].
Proof. reflexivity. Qed.

Example re_split_edges : Py.re_split " cat " = [""; "cat"; ""].
Proof. reflexivity. Qed.

Example re_split_tab_newline :
  Py.re_split (String "c" (String (ascii_of_nat 9) (String (ascii_of_nat 10) "d")))
  = ["c"; "d"].
Proof. reflexivity. Qed.

Lemma re_split_nonempty s : Py.re_split s <> [].
Proof.
  induction s as [|c s IH]; simpl; [discriminate|].
  destruct (Py.is_space c).
  - destruct s as [|c' s']; [discriminate|].
    destruct (Py.is_space c'); [exact IH|discriminate].
  - destruct (Py.re_split s); discriminate.
Qed.

(** ** Padding and truncation *)

Section Padding.

Variable self : TFTextTransformer.

Lemma zeros_embeddingSize :
  0 <= getEmbeddingSize self -> Np.zeros (getEmbeddingSize self) = Some (zero_vector self).
Proof.
  intros HE. unfold Np.zeros.
  destruct (Z.ltb_spec (getEmbeddingSize self) 0) as [Hneg|_]; [lia|reflexivity].
Qed.

Lemma zero_vector_length :
  0 <= getEmbeddingSize self -> Z.of_nat (length (zero_vector self)) = getEmbeddingSize self.
Proof. intros HE. unfold zero_vector. rewrite repeat_length. lia. Qed.

Lemma zero_vector_zero x : x ∈ zero_vector self -> x = 0%float.
Proof.
  unfold zero_vector. intros Hx.
  apply list_elem_of_In in Hx. exact (repeat_spec _ _ _ Hx).
Qed.

Lemma pad_loop_repeat n acc :
  0 <= getEmbeddingSize self ->
  pad_loop self n acc = Some (acc ++ repeat (zero_vector self) n).
Proof.
  intros HE. revert acc.
  induction n as [|n IH]; intros acc; simpl.
  - by rewrite app_nil_r.
  - rewrite (zeros_embeddingSize HE). simpl.
    rewrite IH, <- app_assoc. reflexivity.
Qed.

Lemma pad_loop_0 acc : pad_loop self 0 acc = Some acc.
Proof. reflexivity. Qed.

Lemma _pad_sequences_short sequences maxlen :
  0 <= getEmbeddingSize self ->
  Z.of_nat (length sequences) <= maxlen ->
  _pad_sequences self sequences maxlen =
    Some (sequences ++ repeat (zero_vector self) (Z.to_nat (maxlen - Z.of_nat (length sequences)))).
Proof.
  intros HE Hlen. unfold _pad_sequences.
  destruct (Z.leb_spec (Z.of_nat (length sequences)) maxlen) as [_|Hgt]; [|lia].
  rewrite (pad_loop_repeat _ _ HE). reflexivity.
Qed.

Lemma _pad_sequences_long sequences maxlen :
  maxlen < Z.of_nat (length sequences) ->
  _pad_sequences self sequences maxlen = Some (Py.slice_to sequences maxlen).
Proof.
  intros Hlen. unfold _pad_sequences.
  destruct (Z.leb_spec (Z.of_nat (length sequences)) maxlen) as [Hle|_]; [lia|reflexivity].
Qed.

Lemma slice_to_take {A} (xs : list A) stop :
  0 <= stop -> Py.slice_to xs stop = take (Z.to_nat stop) xs.
Proof.
  intros Hstop. unfold Py.slice_to.
  destruct (Z.ltb_spec stop 0) as [Hneg|_]; [lia|].
  destruct (Z.min_spec stop (Z.of_nat (length xs))) as [[_ ->]|[Hle ->]]; [reflexivity|].
  rewrite Nat2Z.id, firstn_all. symmetry. apply take_ge. lia.
Qed.

(** With a negative [maxlen] the slice drops elements from the end. *)
Lemma slice_to_negative {A} (xs : list A) stop :
  stop < 0 -> Py.slice_to xs stop = take (length xs - Z.to_nat (- stop))%nat xs.
Proof.
  intros Hstop. unfold Py.slice_to.
  destruct (Z.ltb_spec stop 0) as [_|Hpos]; [|lia].
  f_equal. lia.
Qed.

End Padding.

Section Encoder.

Variable self : TFTextTransformer.
Variable local_word_embedding : vocabulary.

Abbreviation L := (getSequenceLength self).
Abbreviation E := (getEmbeddingSize self).

(** Without the reshape of lines 167-168 the encoder returns [result]. *)
Lemma convert_word_to_index_2d s result :
  padded self local_word_embedding s = Some result ->
  not_array_2d self = false ->
  convert_word_to_index self local_word_embedding s = Some (Py.of_rows result).
Proof.
  intros Hres H2d. unfold convert_word_to_index.
  rewrite Hres. simpl. rewrite H2d. reflexivity.
Qed.

(** C1. When at most [L] tokens of [s] are keys of the vocabulary, the
    padded sequence has exactly [L] entries: the looked-up vectors, in
    the order of the tokens, and after them zero vectors, each of [E]
    components that are all [0.0].  With the shape left at [(L, _)] this
    sequence is what [convert_word_to_index] returns. *)
Theorem pad_short_input (s : string) :
  0 <= E ->
  Z.of_nat (length (new_q local_word_embedding s)) <= L ->
  let tokenCount := length (new_q local_word_embedding s) in
  exists result,
    padded self local_word_embedding s = Some result /\
    Z.of_nat (length result) = L /\
    take tokenCount result = lookup_words local_word_embedding (Py.re_split s) /\
    drop tokenCount result = repeat (zero_vector self) (Z.to_nat L - tokenCount) /\
    (forall z, z ∈ drop tokenCount result ->
       Z.of_nat (length z) = E /\ forall x, x ∈ z -> x = 0%float) /\
    (not_array_2d self = false ->
       convert_word_to_index self local_word_embedding s = Some (Py.of_rows result)).
Proof.
  intros HE Hlen tokenCount.
  exists (new_q local_word_embedding s ++ repeat (zero_vector self) (Z.to_nat L - tokenCount)).
  assert (Hpad : padded self local_word_embedding s =
    Some (new_q local_word_embedding s ++ repeat (zero_vector self) (Z.to_nat L - tokenCount))).
  { unfold padded. rewrite (_pad_sequences_short _ _ _ HE Hlen).
    do 3 f_equal. subst tokenCount. lia. }
  split; [exact Hpad|].
  split; [rewrite length_app, repeat_length; subst tokenCount; lia|].
  split; [subst tokenCount; rewrite take_app_length; reflexivity|].
  split; [subst tokenCount; rewrite drop_app_length; reflexivity|].
  split.
  - subst tokenCount. rewrite drop_app_length. intros z Hz.
    apply list_elem_of_In, repeat_spec in Hz. subst z.
    split; [exact (zero_vector_length self HE)|apply zero_vector_zero].
  - intros H2d. exact (convert_word_to_index_2d _ _ Hpad H2d).
Qed.

(** C2. When more than [L] tokens of [s] are keys of the vocabulary, the
    result is the first [L] looked-up vectors, in order, and nothing is
    appended.  With the shape left at [(L, _)] this sequence is what
    [convert_word_to_index] returns. *)
Theorem truncate_long_input (s : string) :
  0 <= L ->
  L < Z.of_nat (length (new_q local_word_embedding s)) ->
  padded self local_word_embedding s =
    Some (take (Z.to_nat L) (lookup_words local_word_embedding (Py.re_split s))) /\
  Z.of_nat (length (take (Z.to_nat L) (lookup_words local_word_embedding (Py.re_split s)))) = L /\
  (not_array_2d self = false ->
     convert_word_to_index self local_word_embedding s =
       Some (Py.of_rows (take (Z.to_nat L) (lookup_words local_word_embedding (Py.re_split s))))).
Proof.
  intros HL Hlen.
  assert (Hpad : padded self local_word_embedding s =
    Some (take (Z.to_nat L) (lookup_words local_word_embedding (Py.re_split s)))).
  { unfold padded. rewrite (_pad_sequences_long _ _ _ Hlen).
    rewrite (slice_to_take _ _ HL). reflexivity. }
  split; [exact Hpad|]. split.
  - rewrite length_take. unfold new_q in Hlen. lia.
  - intros H2d. exact (convert_word_to_index_2d _ _ Hpad H2d).
Qed.

End Encoder.

Example spec_example_pad :
  convert_word_to_index Sample.self Sample.vocabulary0 "cat dog bird"
  = Some (Py.of_rows [Sample.cat; Sample.dog; Sample.zero4]).
Proof. vm_compute. reflexivity. Qed.

Example spec_example_truncate :
  convert_word_to_index Sample.self Sample.vocabulary0 "cat dog cat dog"
  = Some (Py.of_rows [Sample.cat; Sample.dog; Sample.cat]).
Proof. vm_compute. reflexivity. Qed.

Lemma pad_short_input_witness :
  exists result,
    padded Sample.self Sample.vocabulary0 "cat dog bird" = Some result /\
    result = [Sample.cat; Sample.dog; Sample.zero4].
Proof.
  destruct (pad_short_input Sample.self Sample.vocabulary0 "cat dog bird")
    as (result & Hres & _).
  - vm_compute. discriminate.
  - vm_compute. discriminate.
  - exists result. split; [exact Hres|].
    vm_compute in Hres. injection Hres as <-. reflexivity.
Defined.

Lemma truncate_long_input_witness :
  padded Sample.self Sample.vocabulary0 "cat dog cat dog"
  = Some [Sample.cat; Sample.dog; Sample.cat].
Proof.
  destruct (truncate_long_input Sample.self Sample.vocabulary0 "cat dog cat dog")
    as (Hres & _).
  - vm_compute. discriminate.
  - vm_compute. reflexivity.
  - rewrite Hres. vm_compute. reflexivity.
Defined.

(** C1 as stated fails: the encoder returns the padded sequence only
    when the shape is left at [(L, _)].  With [L = 4], [E = 2] and the
    shape [(8,)] the two tokens of ["a b"] are at most [L], and the
    encoder returns a flat list of eight floats, which is no sequence of
    four vectors; with [L = 3], [E = 4] and the default shape
    [(64, 100)] the two known tokens of ["cat dog bird"] are at most [L],
    and the encoder raises. *)
Lemma pad_short_input_counterexample :
  (Z.of_nat (length (new_q Sample.vocabulary_2 "a b"))
     <= getSequenceLength (Sample.self_4x2 [8]) /\
   convert_word_to_index (Sample.self_4x2 [8]) Sample.vocabulary_2 "a b"
     = Some (Py.List (map Py.Float [1; 2; 3; 4; 0; 0; 0; 0]%float)) /\
   Py.List (map Py.Float [1; 2; 3; 4; 0; 0; 0; 0]%float)
     <> Py.of_rows [[1; 2]; [3; 4]; [0; 0]; [0; 0]]%float) /\
  (Z.of_nat (length (new_q Sample.vocabulary0 "cat dog bird"))
     <= getSequenceLength Sample2.self_default_shape /\
   convert_word_to_index Sample2.self_default_shape Sample.vocabulary0 "cat dog bird" = None).
Proof.
  split; split.
  - vm_compute. discriminate.
  - split; [vm_compute; reflexivity|]. discriminate.
  - vm_compute. discriminate.
  - vm_compute. reflexivity.
Qed.

(** C2 as stated fails: the encoder returns the truncated sequence only
    when the shape is left at [(L, _)].  With [L = 4], [E = 2] and the
    shape [(8,)] the five tokens of ["a b a b a"] are more than [L], and
    the encoder returns a flat list of eight floats, not the first four
    vectors; with [L = 3], [E = 4] and the default shape [(64, 100)] the
    four tokens of ["cat dog cat dog"] are more than [L], and the encoder
    raises. *)
Lemma truncate_long_input_counterexample :
  (getSequenceLength (Sample.self_4x2 [8])
     < Z.of_nat (length (new_q Sample.vocabulary_2 "a b a b a")) /\
   convert_word_to_index (Sample.self_4x2 [8]) Sample.vocabulary_2 "a b a b a"
     = Some (Py.List (map Py.Float [1; 2; 3; 4; 1; 2; 3; 4]%float)) /\
   Py.List (map Py.Float [1; 2; 3; 4; 1; 2; 3; 4]%float)
     <> Py.of_rows [[1; 2]; [3; 4]; [1; 2]; [3; 4]]%float) /\
  (getSequenceLength Sample2.self_default_shape
     < Z.of_nat (length (new_q Sample.vocabulary0 "cat dog cat dog")) /\
   convert_word_to_index Sample2.self_default_shape Sample.vocabulary0 "cat dog cat dog"
     = None).
Proof.
  split; split.
  - vm_compute. reflexivity.
  - split; [vm_compute; reflexivity|]. discriminate.
  - vm_compute. reflexivity.
  - vm_compute. reflexivity.
Qed.

(** ** The vocabulary filter *)

Section Lookup.

Variable d : vocabulary.

Lemma in_keys_true word : in_keys d word = true <-> is_Some (d !! word).
Proof. unfold in_keys. apply bool_decide_eq_true. Qed.

Lemma in_keys_false word : in_keys d word = false <-> d !! word = None.
Proof.
  unfold in_keys. rewrite bool_decide_eq_false. symmetry. apply eq_None_not_Some.
Qed.

Lemma lookup_words_nil : lookup_words d [] = [].
Proof. reflexivity. Qed.

Lemma lookup_words_present word v tokens :
  d !! word = Some v -> lookup_words d (word :: tokens) = v :: lookup_words d tokens.
Proof.
  intros Hv. unfold lookup_words. rewrite filter_cons.
  destruct (decide (in_keys d word)) as [_|Hno].
  - simpl. rewrite Hv. reflexivity.
  - exfalso. apply Hno, Is_true_true, in_keys_true. eauto.
Qed.

Lemma lookup_words_absent word tokens :
  d !! word = None -> lookup_words d (word :: tokens) = lookup_words d tokens.
Proof.
  intros Hv. unfold lookup_words. rewrite filter_cons.
  destruct (decide (in_keys d word)) as [Hyes|_]; [|reflexivity].
  apply Is_true_true, in_keys_true in Hyes. rewrite Hv in Hyes.
  destruct Hyes as [? ?]. discriminate.
Qed.

Lemma lookup_words_app tokens1 tokens2 :
  lookup_words d (tokens1 ++ tokens2) = lookup_words d tokens1 ++ lookup_words d tokens2.
Proof. unfold lookup_words. rewrite filter_app, map_app. reflexivity. Qed.

(** The comprehension keeps one vector per token that is a key. *)
Lemma lookup_words_omap tokens : lookup_words d tokens = omap (fun word => d !! word) tokens.
Proof.
  induction tokens as [|word tokens IH]; [reflexivity|].
  simpl. destruct (d !! word) as [v|] eqn:Hv.
  - rewrite (lookup_words_present _ _ _ Hv), IH. reflexivity.
  - rewrite (lookup_words_absent _ _ Hv), IH. reflexivity.
Qed.

Lemma lookup_words_length tokens :
  length (lookup_words d tokens) = length (filter (fun word => is_Some (d !! word)) tokens).
Proof.
  induction tokens as [|word tokens IH]; [reflexivity|].
  rewrite filter_cons. destruct (decide (is_Some (d !! word))) as [[v Hv]|Hno].
  - rewrite (lookup_words_present _ _ _ Hv). simpl. by rewrite IH.
  - apply eq_None_not_Some in Hno. by rewrite (lookup_words_absent _ _ Hno).
Qed.

Lemma lookup_words_Forall (P : list float -> Prop) tokens :
  (forall word v, d !! word = Some v -> P v) -> Forall P (lookup_words d tokens).
Proof.
  intros HP. rewrite lookup_words_omap.
  induction tokens as [|word tokens IH]; simpl; [constructor|].
  destruct (d !! word) as [v|] eqn:Hv; [constructor; eauto|exact IH].
Qed.

(** C6. A token of the input that is no key of the vocabulary leaves no
    entry in the looked-up sequence: the sequence is the one of the
    tokens before it followed by the one of the tokens after it, with
    nothing (and so no ["unk"] vector) in between, and it has one entry
    per token that is a key.  What the encoder returns is computed from
    this sequence alone. *)
Theorem absent_token_dropped (self : TFTextTransformer) (s : string)
    (pre post : list string) (word : string) :
  Py.re_split s = pre ++ word :: post ->
  d !! word = None ->
  new_q d s = lookup_words d pre ++ lookup_words d post /\
  length (new_q d s) = length (filter (fun w => is_Some (d !! w)) (pre ++ post)) /\
  padded self d s = _pad_sequences self (lookup_words d (pre ++ post)) (getSequenceLength self).
Proof.
  intros Hsplit Hword.
  assert (Hq : new_q d s = lookup_words d (pre ++ post)).
  { unfold new_q. rewrite Hsplit, !lookup_words_app, (lookup_words_absent _ _ Hword).
    reflexivity. }
  split; [rewrite Hq; apply lookup_words_app|].
  split; [rewrite Hq; apply lookup_words_length|].
  unfold padded. rewrite Hq. reflexivity.
Qed.

End Lookup.

(** A token that is no key is not turned into the ["unk"] vector, also
    when the vocabulary has that entry. *)
Example absent_token_not_unk :
  new_q Sample.vocabulary_unk "cat bird dog" = [Sample.cat; Sample.dog].
Proof. vm_compute. reflexivity. Qed.

Lemma absent_token_dropped_witness :
  new_q Sample.vocabulary0 "cat dog bird" = [Sample.cat; Sample.dog].
Proof.
  destruct (absent_token_dropped Sample.vocabulary0 Sample.self "cat dog bird"
              ["cat"; "dog"] [] "bird") as (Hq & _).
  - vm_compute. reflexivity.
  - vm_compute. reflexivity.
  - rewrite Hq. vm_compute. reflexivity.
Defined.

(** ** The reshape *)

Section Reshape.

Variable self : TFTextTransformer.

Abbreviation L := (getSequenceLength self).
Abbreviation E := (getEmbeddingSize self).

(** The test of line 151 fails exactly for the shapes [(L, d1)]. *)
Lemma not_array_2d_false : not_array_2d self = false <-> exists d1, getShape self = [L; d1].
Proof.
  unfold not_array_2d. split.
  - intros H. apply orb_false_elim in H as [Hlen Hd0].
    destruct (getShape self) as [|d0 [|d1 [|d2 rest]]]; simpl in Hlen; try discriminate.
    apply negb_false_iff, Z.eqb_eq in Hd0. subst d0. eauto.
  - intros [d1 ->]. simpl. rewrite Z.eqb_refl. reflexivity.
Qed.

Lemma not_array_2d_true : not_array_2d self = true <-> forall d1, getShape self <> [L; d1].
Proof.
  rewrite <- not_false_iff_true, not_array_2d_false. split.
  - intros H d1 Hs. apply H. eauto.
  - intros H [d1 Hs]. exact (H d1 Hs).
Qed.

(** C3, amended. The encoder reshapes the padded sequence if and only if
    the shape is not of the form [(L, d1)]: a shape of two dimensions
    whose first is [L] leaves the result as the list of rows, whatever
    its second dimension is, and every other shape gets
    [np.array(result).reshape(shape).tolist()]. *)
Theorem reshape_condition (d : vocabulary) (s : string) (result : list (list float)) :
  padded self d s = Some result ->
  ((exists d1, getShape self = [L; d1]) ->
     convert_word_to_index self d s = Some (Py.of_rows result)) /\
  ((forall d1, getShape self <> [L; d1]) ->
     convert_word_to_index self d s = reshape_result self result).
Proof.
  intros Hres. unfold convert_word_to_index. rewrite Hres. simpl. split.
  - intros H2d. apply not_array_2d_false in H2d. rewrite H2d. reflexivity.
  - intros Hnot. apply not_array_2d_true in Hnot. rewrite Hnot. reflexivity.
Qed.

End Reshape.

Lemma reshape_condition_witness :
  convert_word_to_index Sample.self Sample.vocabulary0 "cat dog bird"
  = Some (Py.of_rows [Sample.cat; Sample.dog; Sample.zero4]).
Proof.
  destruct (reshape_condition Sample.self Sample.vocabulary0 "cat dog bird"
              [Sample.cat; Sample.dog; Sample.zero4]) as (H2d & _).
  - vm_compute. reflexivity.
  - apply H2d. exists 4. reflexivity.
Defined.

(** C3 as stated fails: with [L = 4], [E = 2] and the shape [(4, 3)],
    which is not [(L, E)], the encoder returns the 4 x 2 rows as they
    are, while reshaping them to [(4, 3)] raises. *)
Lemma reshape_condition_counterexample :
  getShape (Sample.self_4x2 [4; 3])
    <> [getSequenceLength (Sample.self_4x2 [4; 3]); getEmbeddingSize (Sample.self_4x2 [4; 3])] /\
  padded (Sample.self_4x2 [4; 3]) Sample.vocabulary_2 "a b"
    = Some [[1; 2]; [3; 4]; [0; 0]; [0; 0]]%float /\
  convert_word_to_index (Sample.self_4x2 [4; 3]) Sample.vocabulary_2 "a b"
    = Some (Py.of_rows [[1; 2]; [3; 4]; [0; 0]; [0; 0]]%float) /\
  reshape_result (Sample.self_4x2 [4; 3]) [[1; 2]; [3; 4]; [0; 0]; [0; 0]]%float = None.
Proof.
  split; [discriminate|].
  split; [vm_compute; reflexivity|].
  split; vm_compute; reflexivity.
Qed.

(** ** Flattening *)

Lemma concat_length_rows (rows : list (list float)) (e : nat) :
  Forall (fun r => length r = e) rows -> length (concat rows) = (length rows * e)%nat.
Proof.
  induction 1 as [|r rows Hr _ IH]; [reflexivity|].
  simpl. rewrite length_app, IH, Hr. reflexivity.
Qed.

Lemma array_rows (rows : list (list float)) (e : nat) :
  Forall (fun r => length r = e) rows ->
  exists shape, Np.array rows = Some {| Np.nd_shape := shape; Np.nd_data := concat rows |}.
Proof.
  intros Hrows. destruct rows as [|r rows]; [eexists; reflexivity|].
  unfold Np.array.
  assert (Hall : forallb (fun r' => Nat.eqb (length r') (length r)) (r :: rows) = true).
  { apply forallb_forall. intros r' Hr'. apply Nat.eqb_eq.
    rewrite Forall_forall in Hrows.
    rewrite (Hrows r' (proj2 (list_elem_of_In _ _) Hr')).
    symmetry. apply Hrows. left. }
  rewrite Hall. eexists. reflexivity.
Qed.

(** The elements of a one-dimensional array, one float per index. *)
Lemma tolist_aux_flat (data : list float) :
  Np.tolist_aux [Z.of_nat (length data)] data = Py.List (map Py.Float data).
Proof.
  simpl. rewrite Nat2Z.id. f_equal.
  induction data as [|x data IH]; [reflexivity|].
  simpl. f_equal.
  rewrite <- seq_shift, map_map. rewrite <- IH.
  apply map_ext. intros i. reflexivity.
Qed.

Lemma fix_unknown_dimension_flat (n : Z) :
  0 <= n -> Np.fix_unknown_dimension [n] n = Some [n].
Proof.
  intros Hn. unfold Np.fix_unknown_dimension, Np.known_size.
  rewrite !filter_cons, !filter_nil.
  destruct (decide (n < 0)) as [Hneg|_]; [lia|].
  destruct (decide (0 <= n)) as [_|Hneg]; [|lia].
  simpl. rewrite Z.mul_1_r, Z.eqb_refl. reflexivity.
Qed.

(** Reshaping rows of one length to the flat shape of as many elements
    lists the elements row by row. *)
Lemma reshape_result_flat (self : TFTextTransformer) (result : list (list float)) (e : nat) :
  getShape self = [Z.of_nat (length result * e)] ->
  Forall (fun r => length r = e) result ->
  reshape_result self result = Some (Py.List (map Py.Float (concat result))).
Proof.
  intros Hshape Hrows. unfold reshape_result.
  destruct (array_rows _ _ Hrows) as [sh ->]. simpl.
  unfold Np.reshape, Np.size. simpl.
  rewrite Hshape, (concat_length_rows _ _ Hrows).
  rewrite fix_unknown_dimension_flat by lia. simpl.
  unfold Np.tolist. simpl Np.nd_shape. simpl Np.nd_data.
  rewrite <- (concat_length_rows _ _ Hrows). rewrite tolist_aux_flat. reflexivity.
Qed.

Section Rows.

Variable self : TFTextTransformer.
Variable d : vocabulary.

Abbreviation L := (getSequenceLength self).
Abbreviation E := (getEmbeddingSize self).

(** When the vectors of the vocabulary have [E] components, the padded
    sequence is an [L] x [E] matrix. *)
Lemma padded_matrix (s : string) :
  0 <= E -> 0 <= L ->
  (forall word v, d !! word = Some v -> length v = Z.to_nat E) ->
  exists result,
    padded self d s = Some result /\
    length result = Z.to_nat L /\
    Forall (fun r => length r = Z.to_nat E) result.
Proof.
  intros HE HL Hvec.
  pose proof (lookup_words_Forall d (fun v => length v = Z.to_nat E) (Py.re_split s) Hvec) as Hq.
  fold (new_q d s) in Hq.
  destruct (Z.le_gt_cases (Z.of_nat (length (new_q d s))) L) as [Hle|Hgt].
  - eexists. split; [unfold padded; apply (_pad_sequences_short _ _ _ HE Hle)|].
    split; [rewrite length_app, repeat_length; lia|].
    apply Forall_app. split; [exact Hq|].
    apply Forall_forall. intros z Hz.
    apply list_elem_of_In, repeat_spec in Hz. subst z. apply repeat_length.
  - eexists. split.
    { unfold padded. rewrite (_pad_sequences_long _ _ _ Hgt), (slice_to_take _ _ HL).
      reflexivity. }
    split; [rewrite length_take; lia|].
    apply Forall_take. exact Hq.
Qed.

(** C8. With [L = 4], [E = 2] and the shape [(8,)], the encoder returns
    the eight floats of the padded 4 x 2 matrix, row by row. *)
Theorem flat_row_major (s : string) :
  L = 4 -> E = 2 -> getShape self = [8] ->
  (forall word v, d !! word = Some v -> length v = 2%nat) ->
  exists result,
    padded self d s = Some result /\
    length result = 4%nat /\
    Forall (fun r => length r = 2%nat) result /\
    convert_word_to_index self d s = Some (Py.List (map Py.Float (concat result))).
Proof.
  intros HL HE Hshape Hvec.
  destruct (padded_matrix s) as (result & Hres & Hlen & Hrows).
  { rewrite HE. lia. } { rewrite HL. lia. } { rewrite HE. exact Hvec. }
  rewrite HL in Hlen. rewrite HE in Hrows.
  exists result. repeat split; try assumption.
  unfold convert_word_to_index. rewrite Hres. simpl.
  assert (Hnot : not_array_2d self = true).
  { unfold not_array_2d. rewrite Hshape. reflexivity. }
  rewrite Hnot. apply (reshape_result_flat _ _ 2%nat); [|exact Hrows].
  rewrite Hshape, Hlen. reflexivity.
Qed.

End Rows.

Lemma flat_row_major_witness :
  convert_word_to_index (Sample.self_4x2 [8]) Sample.vocabulary_2 "a b"
  = Some (Py.List (map Py.Float [1; 2; 3; 4; 0; 0; 0; 0]%float)).
Proof.
  destruct (flat_row_major (Sample.self_4x2 [8]) Sample.vocabulary_2 "a b")
    as (result & Hres & _ & _ & Hconv).
  - reflexivity.
  - reflexivity.
  - reflexivity.
  - intros word v. unfold Sample.vocabulary_2, Py.dict. simpl.
    intros Hv. apply lookup_insert_Some in Hv as [[_ <-]|[_ Hv]]; [reflexivity|].
    apply lookup_insert_Some in Hv as [[_ <-]|[_ Hv]]; [reflexivity|].
    rewrite lookup_empty in Hv. discriminate.
  - rewrite Hconv. vm_compute in Hres. injection Hres as <-. reflexivity.
Defined.

(** ** The vocabulary *)

Lemma dict_dom_acc {V} (pairs : list (string * V)) (acc : gmap string V) :
  dom (foldl (fun d p => <[p.1 := p.2]> d) acc pairs) = dom acc ∪ list_to_set (pairs.*1).
Proof.
  revert acc. induction pairs as [|p pairs IH]; intros acc; simpl.
  - set_solver.
  - rewrite IH, dom_insert_L. set_solver.
Qed.

Lemma dict_dom {V} (pairs : list (string * V)) :
  dom (Py.dict pairs) = list_to_set (pairs.*1).
Proof. unfold Py.dict. rewrite dict_dom_acc, dom_empty_L. set_solver. Qed.

(** [len(dict(pairs))] is the number of distinct keys. *)
Lemma dict_size (pairs : list (string * list float)) :
  size (Py.dict pairs) = distinct_words pairs.
Proof.
  unfold distinct_words.
  rewrite <- (size_dom (D := gset string)), dict_dom.
  rewrite <- (size_list_to_set (C := gset string) (remove_dups (pairs.*1)))
    by apply NoDup_remove_dups.
  f_equal. apply set_eq. intros x.
  rewrite !elem_of_list_to_set, elem_of_remove_dups. reflexivity.
Qed.

Lemma dict_lookup_is_Some {V} (pairs : list (string * V)) (k : string) :
  is_Some (Py.dict pairs !! k) <-> k ∈ pairs.*1.
Proof. rewrite <- elem_of_dom, dict_dom, elem_of_list_to_set. reflexivity. Qed.

Section Vocabulary.

Variable self : TFTextTransformer.
Variable vectors : list (string * list float).

Abbreviation L := (getSequenceLength self).
Abbreviation E := (getEmbeddingSize self).

Lemma word_embedding_Some (we : vocabulary) :
  word_embedding self vectors = Some we ->
  0 <= E /\ we = <["unk" := zero_vector self]> (Py.dict vectors).
Proof.
  unfold word_embedding, Np.zeros.
  destruct (Z.ltb_spec E 0) as [Hneg|Hpos]; simpl; [discriminate|].
  intros [= <-]. split; [exact Hpos|reflexivity].
Qed.

(** C4. For every list of trained pairs the vocabulary is built, has the
    key ["unk"], and maps it to the vector of [E] components that are
    all [0.0]. *)
Theorem unk_entry :
  0 <= E ->
  exists we : vocabulary,
    word_embedding self vectors = Some we /\
    we !! "unk" = Some (zero_vector self) /\
    Z.of_nat (length (zero_vector self)) = E /\
    (forall x, x ∈ zero_vector self -> x = 0%float).
Proof.
  intros HE. exists (<["unk" := zero_vector self]> (Py.dict vectors)).
  split; [unfold word_embedding; rewrite (zeros_embeddingSize self HE); reflexivity|].
  split; [apply lookup_insert_eq|].
  split; [exact (zero_vector_length self HE)|apply zero_vector_zero].
Qed.

(** [len(word_embedding)]: the entry for ["unk"] counts once, whether or
    not ["unk"] is a trained word. *)
Lemma word_embedding_size (we : vocabulary) :
  word_embedding self vectors = Some we ->
  size we = (distinct_words vectors + (if bool_decide ("unk" ∈ vectors.*1) then 0 else 1))%nat.
Proof.
  intros Hwe. apply word_embedding_Some in Hwe as [_ ->].
  rewrite map_size_insert, dict_size.
  destruct (bool_decide_reflect ("unk" ∈ vectors.*1)) as [Hin|Hout].
  - apply dict_lookup_is_Some in Hin as [v ->]. simpl. lia.
  - destruct (Py.dict vectors !! "unk") as [v|] eqn:Hv; [|simpl; lia].
    exfalso. apply Hout, dict_lookup_is_Some. eauto.
Qed.

End Vocabulary.

Lemma unk_entry_witness :
  exists we : vocabulary,
    word_embedding Sample.self Sample.vectors = Some we /\
    we !! "unk" = Some Sample.zero4.
Proof.
  destruct (unk_entry Sample.self Sample.vectors) as (we & Hwe & Hunk & _).
  - vm_compute. discriminate.
  - exists we. split; [exact Hwe|exact Hunk].
Defined.

(** ** The token ["unk"] *)

Section UnkToken.

Variable self : TFTextTransformer.
Variable vectors : list (string * list float).

Abbreviation L := (getSequenceLength self).

(** C10, amended. The vocabulary filter keeps a token ["unk"] of the
    input: in the looked-up sequence the zero vector stands at the
    token's place, after the vectors of the tokens before it.  It stands
    at the same place in the padded sequence when that place is below
    [L]; from [L] on it is cut off like every other vector. *)
Theorem unk_token_kept (we : vocabulary) (s : string) (pre post : list string) :
  word_embedding self vectors = Some we ->
  Py.re_split s = pre ++ "unk" :: post ->
  let i := length (lookup_words we pre) in
  new_q we s = lookup_words we pre ++ zero_vector self :: lookup_words we post /\
  (Z.of_nat i < L ->
     exists result, padded self we s = Some result /\ result !! i = Some (zero_vector self)).
Proof.
  intros Hwe Hsplit i.
  apply word_embedding_Some in Hwe as [HE Hwe].
  assert (Hunk : we !! "unk" = Some (zero_vector self))
    by (rewrite Hwe; apply lookup_insert_eq).
  assert (Hq : new_q we s = lookup_words we pre ++ zero_vector self :: lookup_words we post).
  { unfold new_q. rewrite Hsplit, lookup_words_app, (lookup_words_present _ _ _ _ Hunk).
    reflexivity. }
  split; [exact Hq|]. intros Hi.
  assert (Hat : new_q we s !! i = Some (zero_vector self))
    by (rewrite Hq; apply list_lookup_middle; reflexivity).
  destruct (Z.le_gt_cases (Z.of_nat (length (new_q we s))) L) as [Hle|Hgt].
  - eexists. split; [unfold padded; apply (_pad_sequences_short _ _ _ HE Hle)|].
    rewrite lookup_app_l; [exact Hat|].
    apply lookup_lt_is_Some. eauto.
  - eexists. split.
    { unfold padded. rewrite (_pad_sequences_long _ _ _ Hgt).
      rewrite slice_to_take by lia. reflexivity. }
    rewrite lookup_take_lt by lia. exact Hat.
Qed.

End UnkToken.

Lemma unk_token_kept_witness :
  exists result,
    padded Sample.self Sample.vocabulary_unk "cat unk dog" = Some result /\
    result !! 1%nat = Some Sample.zero4.
Proof.
  destruct (unk_token_kept Sample.self Sample.vectors Sample.vocabulary_unk
              "cat unk dog" ["cat"] ["dog"]) as (_ & Hpad).
  - vm_compute. reflexivity.
  - reflexivity.
  - apply Hpad. vm_compute. reflexivity.
Defined.

(** C10 as stated fails: in ["cat dog cat unk"] the token ["unk"] is the
    fourth vocabulary word, and with [L = 3] the encoded sequence holds
    the first three vectors only; none of them is the zero vector. *)
Lemma unk_token_kept_counterexample :
  exists we : vocabulary,
    word_embedding Sample.self Sample.vectors = Some we /\
    Py.re_split "cat dog cat unk" = ["cat"; "dog"; "cat"; "unk"] /\
    we !! "unk" = Some Sample.zero4 /\
    convert_word_to_index Sample.self we "cat dog cat unk"
      = Some (Py.of_rows [Sample.cat; Sample.dog; Sample.cat]) /\
    Sample.zero4 ∉ [Sample.cat; Sample.dog; Sample.cat].
Proof.
  eexists. split; [vm_compute; reflexivity|].
  split; [reflexivity|].
  split; [vm_compute; reflexivity|].
  split; [vm_compute; reflexivity|].
  unfold Sample.zero4, Sample.cat, Sample.dog. intros Hin.
  repeat (apply elem_of_cons in Hin as [Hin|Hin]; [discriminate Hin|]).
  by apply elem_of_nil in Hin.
Qed.

(** ** Adding columns *)

Section WithColumn.

Variable resolver : string -> string -> bool.

Lemma existsb_resolver_false (cols : list string) (colName : string) :
  existsb (fun f => resolver f colName) cols = false <->
  forall f, f ∈ cols -> resolver f colName = false.
Proof.
  induction cols as [|f0 cols IH]; simpl.
  - split; [intros _ f Hf; by apply elem_of_nil in Hf|reflexivity].
  - rewrite orb_false_iff, IH. split.
    + intros [H0 Hrest] f Hf. apply elem_of_cons in Hf as [->|Hf]; auto.
    + intros H. split; [apply H; left|intros f Hf; apply H; by right].
Qed.


Lemma withColumn_well_formed (df : Spark.DataFrame) colName col :
  Spark.well_formed df -> Spark.well_formed (Spark.withColumn resolver df colName col).
Proof.
  unfold Spark.well_formed, Spark.withColumn. intros Hwf.
  destruct (existsb _ _); simpl; apply Forall_forall; intros r' Hr';
    apply list_elem_of_In, in_map_iff in Hr' as (r & <- & Hr);
    apply list_elem_of_In in Hr;
    pose proof (proj1 (Forall_forall _ _) Hwf r Hr) as Hlen; simpl in Hlen.
  - rewrite length_zip_with, length_map. lia.
  - rewrite !length_app, Hlen. reflexivity.
Qed.

(** After [withColumn] some column bears the new name. *)
Lemma withColumn_named (df : Spark.DataFrame) colName col :
  exists j, Spark.columns (Spark.withColumn resolver df colName col) !! j = Some colName.
Proof.
  unfold Spark.withColumn. destruct (existsb _ _) eqn:Hex; simpl.
  - apply existsb_exists in Hex as (f & Hf & Hres).
    apply list_elem_of_In, list_elem_of_lookup in Hf as [j Hj].
    exists j. change (map ?g ?l) with (g <$> l).
    rewrite list_lookup_fmap, Hj. simpl. rewrite Hres. reflexivity.
  - exists (length (Spark.columns df)).
    rewrite lookup_app_r by lia. rewrite Nat.sub_diag. reflexivity.
Qed.

(** A column of the result that matches the new name holds the new
    value in every row. *)
Lemma withColumn_value (df : Spark.DataFrame) colName col j f r' :
  Spark.well_formed df ->
  Spark.columns (Spark.withColumn resolver df colName col) !! j = Some f ->
  resolver f colName = true ->
  r' ∈ Spark.rows (Spark.withColumn resolver df colName col) ->
  exists r, r ∈ Spark.rows df /\ r' !! j = Some (col r).
Proof.
  unfold Spark.withColumn. intros Hwf Hj Hres Hr'.
  destruct (existsb _ _) eqn:Hex; simpl in Hj, Hr';
    apply list_elem_of_In, in_map_iff in Hr' as (r & <- & Hr);
    apply list_elem_of_In in Hr; exists r; (split; [exact Hr|]);
    pose proof (proj1 (Forall_forall _ _) Hwf r Hr) as Hlen; simpl in Hlen.
  - change (map ?g ?l) with (g <$> l) in Hj.
    rewrite list_lookup_fmap in Hj.
    destruct (Spark.columns df !! j) as [f0|] eqn:Hf0; [|discriminate].
    simpl in Hj. injection Hj as Hf.
    assert (Hres0 : resolver f0 colName = true).
    { destruct (resolver f0 colName) eqn:H0; [reflexivity|]. subst f0. congruence. }
    destruct (lookup_lt_is_Some_2 r j) as [c Hc].
    { rewrite Hlen. apply lookup_lt_is_Some. eauto. }
    rewrite lookup_zip_with, Hf0, Hc. simpl. rewrite Hres0. reflexivity.
  - pose proof (proj1 (existsb_resolver_false _ _) Hex) as Hnone.
    destruct (decide (j < length (Spark.columns df))%nat) as [Hlt|Hge].
    + rewrite lookup_app_l in Hj by exact Hlt.
      apply list_elem_of_lookup_2, Hnone in Hj. congruence.
    + rewrite lookup_app_r in Hj by lia.
      apply list_lookup_singleton_Some in Hj as [Hj0 _].
      rewrite lookup_app_r by lia.
      replace (j - length r)%nat with 0%nat by lia. reflexivity.
Qed.

(** A column of the result that does not bear the new name is a column
    of the input, with the cells of the input. *)
Lemma withColumn_other (df : Spark.DataFrame) colName col j f :
  Spark.well_formed df ->
  Spark.columns (Spark.withColumn resolver df colName col) !! j = Some f ->
  f <> colName ->
  Spark.columns df !! j = Some f /\
  forall r', r' ∈ Spark.rows (Spark.withColumn resolver df colName col) ->
    exists r, r ∈ Spark.rows df /\ r' !! j = r !! j.
Proof.
  unfold Spark.withColumn. intros Hwf Hj Hne.
  destruct (existsb _ _) eqn:Hex; simpl in Hj |- *.
  - change (map ?g ?l) with (g <$> l) in Hj.
    rewrite list_lookup_fmap in Hj.
    destruct (Spark.columns df !! j) as [f0|] eqn:Hf0; [|discriminate].
    simpl in Hj. injection Hj as Hf.
    destruct (resolver f0 colName) eqn:H0; [congruence|]. subst f0.
    split; [reflexivity|]. intros r' Hr'.
    apply list_elem_of_In, in_map_iff in Hr' as (r & <- & Hr).
    apply list_elem_of_In in Hr. exists r. split; [exact Hr|].
    rewrite lookup_zip_with, Hf0. simpl.
    destruct (r !! j); simpl; [rewrite H0|]; reflexivity.
  - assert (Hlt : (j < length (Spark.columns df))%nat).
    { destruct (decide (j < length (Spark.columns df))%nat) as [Hlt|Hge]; [exact Hlt|].
      rewrite lookup_app_r in Hj by lia.
      apply list_lookup_singleton_Some in Hj as [_ Hf]. congruence. }
    rewrite lookup_app_l in Hj by exact Hlt.
    split; [exact Hj|]. intros r' Hr'.
    apply list_elem_of_In, in_map_iff in Hr' as (r & <- & Hr).
    apply list_elem_of_In in Hr. exists r. split; [exact Hr|].
    pose proof (proj1 (Forall_forall _ _) Hwf r Hr) as Hlen. simpl in Hlen.
    apply lookup_app_l. lia.
Qed.

End WithColumn.

(** ** The transformed dataset *)

Section Transform.

Variable resolver : string -> string -> bool.
Variable self : TFTextTransformer.
Variable vectors : list (string * list float).

Lemma withColumn_keeps (df : Spark.DataFrame) colName col j f :
  Spark.columns df !! j = Some f ->
  resolver f colName = false ->
  Spark.columns (Spark.withColumn resolver df colName col) !! j = Some f.
Proof.
  intros Hj Hres. unfold Spark.withColumn. destruct (existsb _ _); simpl.
  - change (map ?g ?l) with (g <$> l).
    rewrite list_lookup_fmap, Hj. simpl. rewrite Hres. reflexivity.
  - apply lookup_app_l_Some. exact Hj.
Qed.

(** C5, amended. The column [vocab_size] exists and holds, in every row,
    the number of distinct trained words, plus one when ["unk"] is not
    one of them (and plus nothing when it is). *)
Theorem vocab_size_column (dataset out : Spark.DataFrame) :
  resolver VOCAB_SIZE VOCAB_SIZE = true ->
  resolver VOCAB_SIZE EMBEDDING_SIZE = false ->
  Spark.well_formed dataset ->
  _transform resolver self vectors dataset = Some out ->
  let n := (distinct_words vectors
            + (if bool_decide ("unk" ∈ vectors.*1) then 0 else 1))%nat in
  (exists j, Spark.columns out !! j = Some VOCAB_SIZE) /\
  (forall j r, Spark.columns out !! j = Some VOCAB_SIZE -> r ∈ Spark.rows out ->
     r !! j = Some (Spark.Int (Z.of_nat n))).
Proof.
  intros Hrefl Hdiff Hwf Htr n. unfold _transform in Htr.
  destruct (Spark.resolve resolver dataset (getInputCol self)) as [i|];
    simpl in Htr; [|discriminate].
  destruct (word_embedding self vectors) as [we|] eqn:Hwe; simpl in Htr; [|discriminate].
  injection Htr as <-.
  set (s1 := Spark.withColumn resolver dataset (getOutputCol self) _).
  set (v := Spark.Int (Z.of_nat (size we))).
  assert (Hwf1 : Spark.well_formed s1) by (apply withColumn_well_formed; exact Hwf).
  assert (Hwf2 : Spark.well_formed (Spark.withColumn resolver s1 VOCAB_SIZE (Spark.lit v)))
    by (apply withColumn_well_formed; exact Hwf1).
  split.
  - destruct (withColumn_named resolver s1 VOCAB_SIZE (Spark.lit v)) as [j Hj].
    exists j. apply withColumn_keeps; assumption.
  - intros j r Hj Hr.
    destruct (withColumn_other _ _ _ _ _ _ Hwf2 Hj) as (Hj2 & Hrows); [discriminate|].
    destruct (Hrows r Hr) as (r2 & Hr2 & ->).
    destruct (withColumn_value _ _ _ _ _ _ _ Hwf1 Hj2 Hrefl Hr2) as (r1 & _ & ->).
    unfold Spark.lit, v. subst n. rewrite (word_embedding_size _ _ _ Hwe). reflexivity.
Qed.


End Transform.

Example transform_sample :
  _transform String.eqb Sample.self Sample.vectors Sample.dataset = Some
    {| Spark.columns := ["text"; "out"; "vocab_size"; "embedding_size"];
       Spark.rows :=
         [[Spark.Str "cat dog bird";
           Spark.Array (Sample.matrix [Sample.cat; Sample.dog; Sample.zero4]);
           Spark.Int 3; Spark.Int 4];
          [Spark.Str "cat dog cat dog";
           Spark.Array (Sample.matrix [Sample.cat; Sample.dog; Sample.cat]);
           Spark.Int 3; Spark.Int 4]] |}.
Proof. vm_compute. reflexivity. Qed.

Lemma sample_dataset_well_formed : Spark.well_formed Sample.dataset.
Proof. repeat constructor. Qed.

Lemma vocab_size_column_witness :
  exists out,
    _transform String.eqb Sample.self Sample.vectors Sample.dataset = Some out /\
    Forall (fun r => r !! 2%nat = Some (Spark.Int 3)) (Spark.rows out).
Proof.
  eexists. split; [vm_compute; reflexivity|].
  apply Forall_forall. intros r Hr.
  refine (proj2 (vocab_size_column String.eqb Sample.self Sample.vectors Sample.dataset
                   _ _ _ sample_dataset_well_formed _) 2%nat r _ Hr).
  - reflexivity.
  - reflexivity.
  - vm_compute. reflexivity.
  - reflexivity.
Defined.

(** C5 as stated fails: when ["unk"] is itself a trained word, the two
    distinct trained words give a vocabulary of two entries, and
    [vocab_size] is 2 in every row, not 3. *)
Lemma vocab_size_column_counterexample :
  distinct_words Sample.vectors_unk = 2%nat /\
  exists out,
    _transform String.eqb Sample.self Sample.vectors_unk Sample.dataset = Some out /\
    Spark.columns out = ["text"; "out"; "vocab_size"; "embedding_size"] /\
    map (fun r => r !! 2%nat) (Spark.rows out)
      = [Some (Spark.Int 2); Some (Spark.Int 2)] /\
    Spark.Int 2 <> Spark.Int (Z.of_nat (distinct_words Sample.vectors_unk) + 1).
Proof.
  split; [reflexivity|].
  eexists. split; [vm_compute; reflexivity|].
  split; [reflexivity|]. split; [reflexivity|].
  vm_compute. discriminate.
Qed.



(** ** Repeated calls *)

Section Store.

Variable self : TFTextTransformer.

Abbreviation L := (getSequenceLength self).
Abbreviation E := (getEmbeddingSize self).

Lemma deref_app (h : store) (rs1 rs2 : list nat) (vs1 vs2 : list (list float)) :
  deref h rs1 = Some vs1 -> deref h rs2 = Some vs2 ->
  deref h (rs1 ++ rs2) = Some (vs1 ++ vs2).
Proof.
  revert vs1. induction rs1 as [|r rs1 IH]; intros vs1 H1 H2.
  - injection H1 as <-. exact H2.
  - simpl in H1 |- *. destruct (h !! r) as [v|]; simpl in *; [|discriminate].
    destruct (deref h rs1) as [vs|]; simpl in *; [|discriminate].
    injection H1 as <-. rewrite (IH vs eq_refl H2). reflexivity.
Qed.

(** Reading list objects gives the same floats in a store with more
    objects. *)
Lemma deref_extend (h extra : store) (rs : list nat) (vs : list (list float)) :
  deref h rs = Some vs -> deref (h ++ extra) rs = Some vs.
Proof.
  revert vs. induction rs as [|r rs IH]; intros vs H; [exact H|].
  simpl in H |- *. destruct (h !! r) as [v|] eqn:Hr; simpl in *; [|discriminate].
  rewrite (lookup_app_l_Some _ _ _ _ Hr). simpl.
  destruct (deref h rs) as [vs'|]; simpl in *; [|discriminate].
  rewrite (IH vs' eq_refl). exact H.
Qed.

Lemma deref_length (h : store) (rs : list nat) (vs : list (list float)) :
  deref h rs = Some vs -> length vs = length rs.
Proof.
  revert vs. induction rs as [|r rs IH]; intros vs H.
  - injection H as <-. reflexivity.
  - simpl in H. destruct (h !! r); simpl in H; [|discriminate].
    destruct (deref h rs) as [vs'|]; simpl in H; [|discriminate].
    injection H as <-. simpl. by rewrite (IH vs' eq_refl).
Qed.

Lemma deref_take (h : store) (rs : list nat) (vs : list (list float)) (k : nat) :
  deref h rs = Some vs -> deref h (take k rs) = Some (take k vs).
Proof.
  revert vs k. induction rs as [|r rs IH]; intros vs k H.
  - injection H as <-. by rewrite !take_nil.
  - simpl in H. destruct (h !! r) as [v|] eqn:Hr; simpl in H; [|discriminate].
    destruct (deref h rs) as [vs'|]; simpl in H; [|discriminate].
    injection H as <-. destruct k as [|k]; [reflexivity|].
    simpl. rewrite Hr. simpl. rewrite (IH vs' k eq_refl). reflexivity.
Qed.

Lemma deref_slice_to (h : store) (rs : list nat) (vs : list (list float)) (stop : Z) :
  deref h rs = Some vs -> deref h (Py.slice_to rs stop) = Some (Py.slice_to vs stop).
Proof.
  intros H. unfold Py.slice_to. rewrite (deref_length _ _ _ H).
  apply deref_take. exact H.
Qed.

(** The zero vectors that the loop has put into the store. *)
Lemma deref_new (h : store) (z : list float) (n : nat) :
  deref (h ++ repeat z n) (seq (length h) n) = Some (repeat z n).
Proof.
  revert h. induction n as [|n IH]; intros h; [reflexivity|].
  simpl. rewrite lookup_app_r by lia. rewrite Nat.sub_diag. simpl.
  replace (h ++ z :: repeat z n) with ((h ++ [z]) ++ repeat z n)
    by (rewrite <- app_assoc; reflexivity).
  replace (S (length h)) with (length (h ++ [z])) by (rewrite length_app; simpl; lia).
  rewrite IH. reflexivity.
Qed.

(** The loop on the store: it raises when the loop on vectors raises,
    and else adds [n] zero vectors at the end of the store and returns
    their references. *)
Lemma pad_loop_store_spec (n : nat) (acc : list nat) (h : store) :
  match pad_loop_store self n acc h with
  | Some p =>
      p.1 = acc ++ seq (length h) n /\
      p.2 = h ++ repeat (zero_vector self) n /\
      forall accv, pad_loop self n accv = Some (accv ++ repeat (zero_vector self) n)
  | None => forall accv, pad_loop self n accv = None
  end.
Proof.
  revert acc h. induction n as [|n IH]; intros acc h.
  - simpl. rewrite !app_nil_r. repeat split. intros accv. by rewrite app_nil_r.
  - simpl. unfold Np.zeros. destruct (Z.ltb_spec E 0) as [Hneg|Hpos]; simpl.
    + reflexivity.
    + fold (zero_vector self). specialize (IH (acc ++ [length h]) (h ++ [zero_vector self])).
      destruct (pad_loop_store self n _ _) as [p|].
      * destruct IH as (H1 & H2 & H3). rewrite H1, H2.
        rewrite length_app, <- !app_assoc. simpl.
        replace (length h + 1)%nat with (S (length h)) by lia.
        repeat split. intros accv. rewrite H3, <- app_assoc. reflexivity.
      * intros accv. apply IH.
Qed.

Variable d : gmap string nat.

Lemma vocabulary_of_lookup (h : store) (word : string) :
  vocabulary_of h d !! word = d !! word ≫= (fun r => h !! r).
Proof. unfold vocabulary_of. apply lookup_omap. Qed.

Lemma vocabulary_of_extend (h extra : store) :
  valid_refs h d -> vocabulary_of (h ++ extra) d = vocabulary_of h d.
Proof.
  intros Hvalid. apply map_eq. intros word. rewrite !vocabulary_of_lookup.
  destruct (d !! word) as [r|] eqn:Hr; [|reflexivity].
  simpl. apply lookup_app_l. exact (Hvalid word r Hr).
Qed.

Lemma valid_refs_extend (h extra : store) :
  valid_refs h d -> valid_refs (h ++ extra) d.
Proof.
  intros Hvalid word r Hr. rewrite length_app.
  pose proof (Hvalid word r Hr). lia.
Qed.

(** The references of [new_q] are the list objects of the vectors of
    [new_q]. *)
Lemma deref_lookup_refs (h : store) (tokens : list string) :
  valid_refs h d ->
  deref h (lookup_refs d tokens) = Some (lookup_words (vocabulary_of h d) tokens).
Proof.
  intros Hvalid.
  induction tokens as [|word tokens IH]; [reflexivity|].
  assert (Hcons : lookup_refs d (word :: tokens)
                  = match d !! word with
                    | Some r => r :: lookup_refs d tokens
                    | None => lookup_refs d tokens
                    end) by reflexivity.
  rewrite Hcons. destruct (d !! word) as [r|] eqn:Hr.
  - destruct (lookup_lt_is_Some_2 h r (Hvalid word r Hr)) as [v Hv].
    simpl. rewrite Hv, IH. simpl.
    rewrite (lookup_words_present _ word v); [reflexivity|].
    rewrite vocabulary_of_lookup, Hr. exact Hv.
  - rewrite lookup_words_absent; [exact IH|].
    rewrite vocabulary_of_lookup, Hr. reflexivity.
Qed.

(** Padding on the store: it raises when padding the vectors raises,
    and else only adds list objects to the store; the references it
    returns are the list objects of the padded vectors. *)
Lemma _pad_sequences_store_spec (h : store) (rs : list nat) (vs : list (list float))
    (maxlen : Z) :
  deref h rs = Some vs ->
  match _pad_sequences_store self rs maxlen h with
  | Some p =>
      exists new result,
        p.2 = h ++ new /\
        _pad_sequences self vs maxlen = Some result /\
        deref p.2 p.1 = Some result
  | None => _pad_sequences self vs maxlen = None
  end.
Proof.
  intros Hrs. unfold _pad_sequences_store, _pad_sequences.
  rewrite (deref_length _ _ _ Hrs).
  destruct (Z.leb_spec (Z.of_nat (length rs)) maxlen) as [Hle|Hgt].
  - pose proof (pad_loop_store_spec (Z.to_nat (maxlen - Z.of_nat (length rs))) [] h) as Hloop.
    destruct (pad_loop_store self _ [] h) as [p|]; simpl.
    + destruct Hloop as (H1 & H2 & H3). rewrite H3. simpl.
      eexists _, _. split; [exact H2|]. split; [reflexivity|].
      rewrite H1, H2. simpl. apply deref_app.
      * apply deref_extend. exact Hrs.
      * apply deref_new.
    + rewrite Hloop. reflexivity.
  - simpl. exists [], (Py.slice_to vs maxlen). rewrite app_nil_r.
    repeat split. apply deref_slice_to. exact Hrs.
Qed.

(** A call on the store raises when the encoder on the vocabulary of
    vectors raises; else it only adds list objects to the store, and its
    result has, in the store after the call, the value that the encoder
    on the vocabulary of vectors returns. *)
Lemma convert_word_to_index_store_spec (h : store) (s : string) :
  valid_refs h d ->
  match convert_word_to_index_store self d s h with
  | Some (out, h') =>
      (exists new, h' = h ++ new) /\
      exists v, value_of h' out = Some v /\
                convert_word_to_index self (vocabulary_of h d) s = Some v
  | None => convert_word_to_index self (vocabulary_of h d) s = None
  end.
Proof.
  intros Hvalid. unfold convert_word_to_index_store, convert_word_to_index, padded, new_q.
  pose proof (_pad_sequences_store_spec h _ _ L (deref_lookup_refs h (Py.re_split s) Hvalid))
    as Hpad.
  destruct (_pad_sequences_store self _ L h) as [p|]; simpl; [|rewrite Hpad; reflexivity].
  destruct Hpad as (new & result & Hh & Hres & Hderef).
  rewrite Hres. simpl. destruct (not_array_2d self).
  - rewrite Hderef. simpl.
    destruct (reshape_result self result) as [v|]; simpl; [|reflexivity].
    split; [eauto|]. exists v. split; reflexivity.
  - split; [eauto|]. exists (Py.of_rows result). simpl. rewrite Hderef. split; reflexivity.
Qed.

Lemma value_of_extend (h extra : store) (out : returned) (v : Py.value) :
  value_of h out = Some v -> value_of (h ++ extra) out = Some v.
Proof.
  destruct out as [rs|v']; simpl; [|trivial].
  destruct (deref h rs) as [rows|] eqn:Hrows; simpl; [|discriminate].
  rewrite (deref_extend _ extra _ _ Hrows). trivial.
Qed.

(** C7. On a store whose vocabulary vectors are list objects, a call of
    the encoder that returns is followed, whatever list objects are made
    in between, by a call on the same string that returns too, with the
    same value; the value of the first result is still the same after
    the second call, and so are the vectors of the vocabulary.  A call
    that raises is followed by a call that raises. *)
Theorem encoder_deterministic (h extra : store) (s : string) :
  valid_refs h d ->
  match convert_word_to_index_store self d s h with
  | Some (out1, h1) =>
      exists out2 h2 v,
        convert_word_to_index_store self d s (h1 ++ extra) = Some (out2, h2) /\
        value_of h1 out1 = Some v /\
        value_of h2 out2 = Some v /\
        value_of h2 out1 = Some v /\
        vocabulary_of h2 d = vocabulary_of h d
  | None => convert_word_to_index_store self d s (h ++ extra) = None
  end.
Proof.
  intros Hvalid.
  pose proof (convert_word_to_index_store_spec h s Hvalid) as H1.
  destruct (convert_word_to_index_store self d s h) as [[out1 h1]|].
  - destruct H1 as ([new ->] & v & Hv1 & Hpure).
    assert (Hvalid2 : valid_refs ((h ++ new) ++ extra) d)
      by (rewrite <- app_assoc; apply valid_refs_extend; exact Hvalid).
    pose proof (convert_word_to_index_store_spec ((h ++ new) ++ extra) s Hvalid2) as H2.
    assert (Hvoc : vocabulary_of ((h ++ new) ++ extra) d = vocabulary_of h d)
      by (rewrite <- app_assoc; apply vocabulary_of_extend; exact Hvalid).
    rewrite Hvoc in H2.
    destruct (convert_word_to_index_store self d s ((h ++ new) ++ extra)) as [[out2 h2]|].
    + destruct H2 as ([new2 ->] & v2 & Hv2 & Hpure2).
      rewrite Hpure in Hpure2. injection Hpure2 as <-.
      exists out2, (((h ++ new) ++ extra) ++ new2), v.
      split; [reflexivity|]. split; [exact Hv1|]. split; [exact Hv2|]. split.
      * rewrite <- app_assoc. apply value_of_extend. exact Hv1.
      * rewrite <- !app_assoc. apply vocabulary_of_extend. exact Hvalid.
    + rewrite Hpure in H2. discriminate.
  - pose proof (convert_word_to_index_store_spec (h ++ extra) s
                  (valid_refs_extend h extra Hvalid)) as H2.
    rewrite (vocabulary_of_extend h _ Hvalid), H1 in H2.
    destruct (convert_word_to_index_store self d s (h ++ extra)) as [[out2 h2]|];
      [|reflexivity].
    destruct H2 as (_ & v & _ & Hpure). discriminate.
Qed.

End Store.

Lemma encoder_deterministic_witness :
  exists out1 h1 out2 h2,
    convert_word_to_index_store Sample.self Sample.vocabulary_refs "cat dog bird"
      Sample.store0 = Some (out1, h1) /\
    convert_word_to_index_store Sample.self Sample.vocabulary_refs "cat dog bird"
      (h1 ++ [Sample.cat]) = Some (out2, h2) /\
    value_of h2 out2 = value_of h1 out1.
Proof.
  pose proof (encoder_deterministic Sample.self Sample.vocabulary_refs Sample.store0
                [Sample.cat] "cat dog bird") as H.
  destruct (convert_word_to_index_store Sample.self Sample.vocabulary_refs "cat dog bird"
              Sample.store0) as [[out1 h1]|] eqn:H1; [|vm_compute in H1; discriminate].
  destruct H as (out2 & h2 & v & H2 & Hv1 & Hv2 & _).
  - intros word r. unfold Sample.vocabulary_refs.
    intros Hr. apply lookup_insert_Some in Hr as [[_ <-]|[_ Hr]]; [simpl; lia|].
    apply lookup_insert_Some in Hr as [[_ <-]|[_ Hr]]; [simpl; lia|].
    rewrite lookup_empty in Hr. discriminate.
  - exists out1, h1, out2, h2. split; [reflexivity|]. split; [exact H2|].
    rewrite Hv1, Hv2. reflexivity.
Defined.

(** ** A negative sequence length *)

(** X4. For a negative [L] the test [len(sequences) <= maxlen] fails and the
    slice [sequences[0:maxlen]] drops the last [-L] vectors. *)
Lemma padded_negative_length (self : TFTextTransformer) (d : vocabulary) (s : string) :
  getSequenceLength self < 0 ->
  padded self d s =
    Some (take (length (new_q d s) - Z.to_nat (- getSequenceLength self))%nat (new_q d s)).
Proof.
  intros HL. unfold padded.
  rewrite _pad_sequences_long by lia.
  rewrite slice_to_negative by exact HL. reflexivity.
Qed.

Lemma padded_negative_length_witness :
  padded Sample2.self_negative Sample.vocabulary0 "cat dog" = Some [Sample.cat].
Proof.
  rewrite (padded_negative_length Sample2.self_negative Sample.vocabulary0 "cat dog").
  - vm_compute. reflexivity.
  - vm_compute. reflexivity.
Defined.

(** * Further properties of the encoder *)

Section EncoderEdges.

Variable self : TFTextTransformer.
Variable d : vocabulary.

Abbreviation L := (getSequenceLength self).
Abbreviation E := (getEmbeddingSize self).

Lemma pad_loop_raises n acc :
  E < 0 -> pad_loop self (S n) acc = None.
Proof.
  intros HE. simpl. unfold Np.zeros.
  destruct (Z.ltb_spec E 0) as [_|Hpos]; [reflexivity|lia].
Qed.

(** X1. Padding raises exactly when a zero vector is needed and the
    embedding size is negative: [np.zeros] is called only when fewer
    than [L] tokens are keys. *)
Theorem padded_raises_iff (s : string) :
  padded self d s = None <-> E < 0 /\ Z.of_nat (length (new_q d s)) < L.
Proof.
  unfold padded, _pad_sequences.
  destruct (Z.leb_spec (Z.of_nat (length (new_q d s))) L) as [Hle|Hgt].
  - destruct (Z.to_nat (L - Z.of_nat (length (new_q d s)))) as [|n] eqn:Hn.
    + simpl. split; [discriminate|]. intros [_ Hlt]. lia.
    + destruct (Z.lt_ge_cases E 0) as [HE|HE].
      * rewrite (pad_loop_raises _ _ HE). simpl. split; [|reflexivity].
        intros _. split; [exact HE|lia].
      * rewrite (pad_loop_repeat self _ _ HE). simpl.
        split; [discriminate|]. intros [Hneg _]. lia.
  - split; [discriminate|]. intros [_ Hlt]. lia.
Qed.

Lemma lookup_words_no_key tokens :
  (forall w, w ∈ tokens -> d !! w = None) -> lookup_words d tokens = [].
Proof.
  induction tokens as [|w tokens IH]; intros Hnone; [reflexivity|].
  rewrite lookup_words_absent by (apply Hnone; left).
  apply IH. intros w' Hw'. apply Hnone. by right.
Qed.

(** X3. An input none of whose tokens is a key (the empty string, a string
    of whitespace, a text of unknown words) is encoded as [L] zero
    vectors. *)
Theorem no_known_token_all_zero (s : string) :
  0 <= E ->
  (forall w, w ∈ Py.re_split s -> d !! w = None) ->
  padded self d s = Some (repeat (zero_vector self) (Z.to_nat L)).
Proof.
  intros HE Hnone. unfold padded, new_q.
  rewrite (lookup_words_no_key _ Hnone).
  destruct (Z.le_gt_cases 0 L) as [HL|HL].
  - rewrite _pad_sequences_short by (simpl; lia).
    simpl. rewrite Z.sub_0_r. reflexivity.
  - rewrite _pad_sequences_long by (simpl; lia).
    replace (Z.to_nat L) with 0%nat by lia.
    unfold Py.slice_to. rewrite take_nil. reflexivity.
Qed.

(** X2. With vectors of [E] components in the vocabulary and the shape
    [(L, E)], the encoder returns, for every input, a list of exactly [L]
    rows of exactly [E] floats each. *)
Theorem encoder_returns_matrix (s : string) :
  0 <= E -> 0 <= L ->
  getShape self = [L; E] ->
  (forall word v, d !! word = Some v -> length v = Z.to_nat E) ->
  exists result,
    convert_word_to_index self d s = Some (Py.of_rows result) /\
    length result = Z.to_nat L /\
    Forall (fun r => length r = Z.to_nat E) result.
Proof.
  intros HE HL Hshape Hvec.
  destruct (padded_matrix self d s HE HL Hvec) as (result & Hres & Hlen & Hrows).
  exists result. split; [|split; assumption].
  apply convert_word_to_index_2d; [exact Hres|].
  apply not_array_2d_false. eauto.
Qed.

End EncoderEdges.

Lemma no_known_token_all_zero_witness :
  padded Sample.self Sample.vocabulary0 "" = Some [Sample.zero4; Sample.zero4; Sample.zero4].
Proof.
  rewrite (no_known_token_all_zero Sample.self Sample.vocabulary0 "").
  - reflexivity.
  - vm_compute. discriminate.
  - intros w Hw. apply list_elem_of_singleton in Hw as ->. vm_compute. reflexivity.
Defined.

Lemma encoder_returns_matrix_witness :
  exists result,
    convert_word_to_index Sample.self Sample.vocabulary0 "cat dog bird"
      = Some (Py.of_rows result) /\ length result = 3%nat.
Proof.
  destruct (encoder_returns_matrix Sample.self Sample.vocabulary0 "cat dog bird")
    as (result & Hconv & Hlen & _).
  - vm_compute. discriminate.
  - vm_compute. discriminate.
  - reflexivity.
  - intros word v. unfold Sample.vocabulary0, Sample.vectors, Py.dict. simpl.
    intros Hv. apply lookup_insert_Some in Hv as [[_ <-]|[_ Hv]]; [reflexivity|].
    apply lookup_insert_Some in Hv as [[_ <-]|[_ Hv]]; [reflexivity|].
    rewrite lookup_empty in Hv. discriminate.
  - exists result. split; [exact Hconv|exact Hlen].
Defined.

(** ** Tokens and whitespace *)

Lemma re_split_cons_space c s :
  Py.is_space c = true ->
  exists ws, Py.re_split (String c s) = EmptyString :: ws /\
    filter (fun w => w <> EmptyString) ws
    = filter (fun w => w <> EmptyString) (Py.re_split s).
Proof.
  intros Hc. revert c Hc. induction s as [|c' s' IH]; intros c Hc.
  - simpl. rewrite Hc. eauto.
  - change (Py.re_split (String c (String c' s')))
      with (if Py.is_space c
            then if Py.is_space c' then Py.re_split (String c' s')
                 else EmptyString :: Py.re_split (String c' s')
            else match Py.re_split (String c' s') with
                 | w :: ws => String c w :: ws
                 | [] => [String c EmptyString]
                 end).
    rewrite Hc. destruct (Py.is_space c') eqn:Hc'; [|eauto].
    destruct (IH c' Hc') as (ws & Heq & Hfilter).
    exists ws. split; [exact Heq|].
    rewrite Heq, filter_cons_False by (intros H; exact (H eq_refl)). reflexivity.
Qed.

Lemma re_split_cons_other c s :
  Py.is_space c = false ->
  exists w ws, Py.re_split s = w :: ws /\ Py.re_split (String c s) = String c w :: ws.
Proof.
  intros Hc. simpl. rewrite Hc.
  destruct (Py.re_split s) as [|w ws] eqn:Hs; [by apply re_split_nonempty in Hs|].
  eauto.
Qed.

(** No token holds a whitespace character. *)
Lemma re_split_no_space s w : w ∈ Py.re_split s -> PyStr.has_space w = false.
Proof.
  revert w. induction s as [|c s IH]; intros w Hw.
  - apply list_elem_of_singleton in Hw as ->. reflexivity.
  - destruct (Py.is_space c) eqn:Hc.
    + assert (Hsub : w = EmptyString \/ w ∈ Py.re_split s).
      { simpl in Hw. rewrite Hc in Hw.
        destruct s as [|c' s']; [apply elem_of_cons in Hw; exact Hw|].
        destruct (Py.is_space c'); [right; exact Hw|apply elem_of_cons in Hw; exact Hw]. }
      destruct Hsub as [->|Hin]; [reflexivity|exact (IH _ Hin)].
    + destruct (re_split_cons_other c s Hc) as (w0 & ws & Hs & Hcs).
      rewrite Hcs in Hw. apply elem_of_cons in Hw as [->|Hw].
      * simpl. rewrite Hc. simpl. apply IH. rewrite Hs. left.
      * apply IH. rewrite Hs. by right.
Qed.

(** Splitting at a whitespace character: up to empty pieces, the tokens
    are those of the text before it followed by those of the text after
    it. *)
Lemma re_split_at_space s1 c s2 :
  Py.is_space c = true ->
  filter (fun w => w <> EmptyString) (Py.re_split (s1 +:+ String c s2))
  = filter (fun w => w <> EmptyString) (Py.re_split s1)
    ++ filter (fun w => w <> EmptyString) (Py.re_split s2).
Proof.
  intros Hc.
  cut (exists w ws X,
         Py.re_split s1 = w :: ws /\
         Py.re_split (s1 +:+ String c s2) = w :: X /\
         filter (fun w => w <> EmptyString) X
         = filter (fun w => w <> EmptyString) ws
           ++ filter (fun w => w <> EmptyString) (Py.re_split s2)).
  { intros (w & ws & X & -> & -> & HX).
    rewrite !filter_cons. destruct (decide (w <> EmptyString)); rewrite HX; reflexivity. }
  induction s1 as [|x s1 IH].
  - destruct (re_split_cons_space c s2 Hc) as (X & HX & Hfilter).
    exists EmptyString, [], X. repeat split; [exact HX|exact Hfilter].
  - destruct IH as (w & ws & X & Hs1 & Hwhole & HX).
    change (String x s1 +:+ String c s2) with (String x (s1 +:+ String c s2)).
    destruct (Py.is_space x) eqn:Hx.
    + destruct (re_split_cons_space x s1 Hx) as (ws1 & Hs1' & Hf1).
      destruct (re_split_cons_space x (s1 +:+ String c s2) Hx) as (X1 & Hwhole' & Hf2).
      exists EmptyString, ws1, X1. repeat split; [exact Hs1'|exact Hwhole'|].
      rewrite Hf1, Hf2, Hs1, Hwhole, !filter_cons.
      destruct (decide (w <> EmptyString)); rewrite HX; reflexivity.
    + destruct (re_split_cons_other x s1 Hx) as (w1 & ws1 & Hs1' & Hxs1).
      destruct (re_split_cons_other x (s1 +:+ String c s2) Hx) as (w2 & X2 & Hw2 & Hxwhole).
      rewrite Hs1 in Hs1'. injection Hs1' as <- <-.
      rewrite Hwhole in Hw2. injection Hw2 as <- <-.
      exists (String x w), ws, X. repeat split; assumption.
Qed.

Section Whitespace.

Variable self : TFTextTransformer.
Variable d : vocabulary.

Abbreviation L := (getSequenceLength self).

Lemma lookup_words_skip_empty tokens :
  d !! EmptyString = None ->
  lookup_words d (filter (fun w => w <> EmptyString) tokens) = lookup_words d tokens.
Proof.
  intros Hempty. induction tokens as [|w tokens IH]; [reflexivity|].
  rewrite filter_cons. destruct (decide (w <> EmptyString)) as [Hne|Heq].
  - destruct (d !! w) as [v|] eqn:Hv.
    + rewrite !(lookup_words_present _ _ _ _ Hv), IH. reflexivity.
    + rewrite !(lookup_words_absent _ _ _ Hv). exact IH.
  - apply dec_stable in Heq. subst w.
    rewrite (lookup_words_absent _ _ _ Hempty). exact IH.
Qed.

(** X6. When the empty string is no key, the looked-up sequence of two texts
    joined by a whitespace character is the sequence of the first
    followed by that of the second: whitespace at either end of the
    input, or repeated between words, changes nothing. *)
Theorem new_q_at_space (s1 s2 : string) (c : ascii) :
  Py.is_space c = true ->
  d !! EmptyString = None ->
  new_q d (s1 +:+ String c s2) = new_q d s1 ++ new_q d s2.
Proof.
  intros Hc Hempty. unfold new_q.
  rewrite <- (lookup_words_skip_empty (Py.re_split (s1 +:+ String c s2)) Hempty).
  rewrite (re_split_at_space _ _ _ Hc), lookup_words_app.
  rewrite !(lookup_words_skip_empty _ Hempty). reflexivity.
Qed.

Lemma _pad_sequences_exact sequences :
  Z.of_nat (length sequences) = L ->
  _pad_sequences self sequences L = Some sequences.
Proof.
  intros Hlen. unfold _pad_sequences.
  destruct (Z.leb_spec (Z.of_nat (length sequences)) L) as [_|Hgt]; [|lia].
  replace (Z.to_nat (L - Z.of_nat (length sequences))) with 0%nat by lia.
  simpl. rewrite app_nil_r. reflexivity.
Qed.

(** X7. Only the first [L] vocabulary words of a text count: once a text has
    [L] of them, what follows it after a whitespace character leaves the
    padded sequence as it is. *)
Theorem text_after_L_words_ignored (s1 s2 : string) (c : ascii) :
  Py.is_space c = true ->
  d !! EmptyString = None ->
  0 <= L ->
  L <= Z.of_nat (length (new_q d s1)) ->
  padded self d (s1 +:+ String c s2) = padded self d s1.
Proof.
  intros Hc Hempty HL Hlen. unfold padded.
  assert (Hq : new_q d (s1 +:+ String c s2) = new_q d s1 ++ new_q d s2).
  { unfold new_q.
    rewrite <- (lookup_words_skip_empty (Py.re_split (s1 +:+ String c s2)) Hempty).
    rewrite (re_split_at_space _ _ _ Hc), lookup_words_app.
    rewrite !(lookup_words_skip_empty _ Hempty). reflexivity. }
  rewrite Hq.
  assert (Htake : Py.slice_to (new_q d s1 ++ new_q d s2) L = take (Z.to_nat L) (new_q d s1)).
  { rewrite slice_to_take by exact HL. apply take_app_le. lia. }
  destruct (Z.eq_dec (Z.of_nat (length (new_q d s1))) L) as [Heq|Hne].
  - rewrite (_pad_sequences_exact _ Heq).
    destruct (new_q d s2) as [|v q2] eqn:Hq2.
    + rewrite app_nil_r. apply _pad_sequences_exact. exact Heq.
    + rewrite _pad_sequences_long by (rewrite length_app; simpl; lia).
      rewrite Htake. f_equal. apply take_ge. lia.
  - rewrite !_pad_sequences_long by (rewrite ?length_app; lia).
    rewrite Htake, slice_to_take by exact HL. reflexivity.
Qed.

End Whitespace.

Lemma new_q_at_space_witness :
  new_q Sample.vocabulary0 "  cat   dog " = [Sample.cat; Sample.dog].
Proof.
  etransitivity.
  - refine (new_q_at_space Sample.vocabulary0 "  cat  " "dog " " " _ _).
    + reflexivity.
    + vm_compute. reflexivity.
  - vm_compute. reflexivity.
Defined.

Lemma text_after_L_words_ignored_witness :
  padded Sample.self Sample.vocabulary0 "cat dog cat dog dog"
  = Some [Sample.cat; Sample.dog; Sample.cat].
Proof.
  etransitivity.
  - refine (text_after_L_words_ignored Sample.self Sample.vocabulary0
              "cat dog cat" "dog dog" " " _ _ _ _).
    + reflexivity.
    + vm_compute. reflexivity.
    + vm_compute. discriminate.
    + vm_compute. discriminate.
  - vm_compute. reflexivity.
Defined.

Section DeadKeys.

Variable self : TFTextTransformer.

Lemma lookup_words_agree (d d' : vocabulary) (tokens : list string) :
  (forall w, w ∈ tokens -> d' !! w = d !! w) ->
  lookup_words d' tokens = lookup_words d tokens.
Proof.
  intros Hagree.
  induction tokens as [|w tokens IH]; [reflexivity|].
  assert (Hw : d' !! w = d !! w) by (apply Hagree; left).
  assert (Hrest : lookup_words d' tokens = lookup_words d tokens)
    by (apply IH; intros w' Hw'; apply Hagree; by right).
  destruct (d !! w) as [v|] eqn:Hv.
  - rewrite (lookup_words_present d' _ _ _ Hw), (lookup_words_present d _ _ _ Hv), Hrest.
    reflexivity.
  - rewrite (lookup_words_absent d' _ _ Hw), (lookup_words_absent d _ _ Hv). exact Hrest.
Qed.

(** X5. A key that holds a whitespace character is never looked up: adding
    such an entry to the vocabulary, or removing it, changes no result
    of the encoder. *)
Theorem key_with_space_unused (d : vocabulary) (k : string) (v : list float) (s : string) :
  PyStr.has_space k = true ->
  convert_word_to_index self (<[k := v]> d) s = convert_word_to_index self d s /\
  convert_word_to_index self (delete k d) s = convert_word_to_index self d s.
Proof.
  intros Hk.
  assert (Hne : forall w, w ∈ Py.re_split s -> k <> w).
  { intros w Hw ->. apply re_split_no_space in Hw. congruence. }
  unfold convert_word_to_index, padded, new_q. split.
  - rewrite (lookup_words_agree d (<[k := v]> d)); [reflexivity|].
    intros w Hw. apply lookup_insert_ne. exact (Hne w Hw).
  - rewrite (lookup_words_agree d (delete k d)); [reflexivity|].
    intros w Hw. apply lookup_delete_ne. exact (Hne w Hw).
Qed.

End DeadKeys.

Lemma key_with_space_unused_witness :
  convert_word_to_index Sample.self (<[" " := Sample.dog]> Sample.vocabulary0) "cat  dog"
  = Some (Py.of_rows [Sample.cat; Sample.dog; Sample.zero4]).
Proof.
  rewrite (proj1 (key_with_space_unused Sample.self Sample.vocabulary0 " " Sample.dog
                    "cat  dog" eq_refl)).
  vm_compute. reflexivity.
Defined.

(** * Further properties of the reshape *)

Lemma take_chunks (data : list float) (k n : nat) :
  concat (map (fun i => take k (drop (i * k) data)) (seq 0 n)) = take (n * k) data.
Proof.
  induction n as [|n IH]; [reflexivity|].
  rewrite seq_S, map_app, concat_app, IH. simpl. rewrite app_nil_r.
  rewrite take_take_drop. f_equal. simpl. lia.
Qed.

Lemma flatten_of_rows (rows : list (list float)) :
  PyStr.flatten (Py.of_rows rows) = concat rows.
Proof.
  unfold Py.of_rows. simpl. rewrite map_map. f_equal.
  transitivity (map id rows); [|apply map_id].
  apply map_ext. intros r. simpl.
  induction r as [|x r IH]; [reflexivity|]. simpl. by rewrite IH.
Qed.

Lemma product_nonneg (shape : list Z) :
  Forall (fun n => 0 <= n) shape -> 0 <= foldr Z.mul 1 shape.
Proof. induction 1 as [|n shape Hn _ IH]; simpl; [lia|]. apply Z.mul_nonneg_nonneg; assumption. Qed.

(** The floats of [tolist], read in order, are the elements of the array. *)
Lemma flatten_tolist_aux (shape : list Z) (data : list float) :
  Forall (fun n => 0 <= n) shape ->
  Z.of_nat (length data) = foldr Z.mul 1 shape ->
  PyStr.flatten (Np.tolist_aux shape data) = data.
Proof.
  intros Hshape. revert data.
  induction Hshape as [|n rest Hn Hrest IH]; intros data Hlen.
  - destruct data as [|x [|y data]]; simpl in Hlen; try lia. reflexivity.
  - pose proof (product_nonneg rest Hrest) as Hk.
    simpl in Hlen |- *. rewrite map_map.
    set (k := Z.to_nat (foldr Z.mul 1 rest)).
    assert (Hdata : length data = (Z.to_nat n * k)%nat) by (subst k; nia).
    rewrite (map_ext_in _ (fun i => take k (drop (i * k) data))).
    + rewrite take_chunks. apply take_ge. lia.
    + intros i Hi. apply in_seq in Hi. apply IH.
      rewrite length_take, length_drop. subst k. nia.
Qed.

Lemma known_size_all (shape : list Z) :
  Forall (fun n => 0 <= n) shape -> Np.known_size shape = foldr Z.mul 1 shape.
Proof.
  unfold Np.known_size. induction 1 as [|n shape Hn _ IH]; [reflexivity|].
  rewrite filter_cons_True by exact Hn. simpl. by rewrite IH.
Qed.


Lemma no_unknown_nil (shape : list Z) :
  filter (fun n => n < 0) shape = [] -> Forall (fun n => 0 <= n) shape.
Proof.
  induction shape as [|n shape IH]; [constructor|].
  rewrite filter_cons. destruct (decide (n < 0)); [discriminate|].
  intros H. constructor; [lia|exact (IH H)].
Qed.

Lemma known_size_nonneg (shape : list Z) : 0 <= Np.known_size shape.
Proof.
  unfold Np.known_size. induction shape as [|n shape IH]; simpl; [lia|].
  rewrite filter_cons. destruct (decide (0 <= n)); [|exact IH].
  simpl. apply Z.mul_nonneg_nonneg; assumption.
Qed.

Lemma product_inferred (shape : list Z) (q : Z) :
  foldr Z.mul 1 (map (fun n => if n <? 0 then q else n) shape)
  = Np.known_size shape * q ^ Z.of_nat (length (filter (fun n => n < 0) shape)).
Proof.
  unfold Np.known_size. induction shape as [|n shape IH]; [reflexivity|].
  simpl. rewrite !filter_cons, IH.
  destruct (Z.ltb_spec n 0) as [Hneg|Hpos];
    destruct (decide (0 <= n)) as [H0|H0]; destruct (decide (n < 0)) as [H1|H1];
    try lia.
  - simpl length. rewrite Nat2Z.inj_succ, Z.pow_succ_r by lia. ring.
  - simpl. ring.
Qed.

(** The shape that [reshape] settles on has no negative entry and as
    many elements as the array. *)
Lemma fix_unknown_dimension_Some (newshape dims : list Z) (size : Z) :
  0 <= size ->
  Np.fix_unknown_dimension newshape size = Some dims ->
  Forall (fun n => 0 <= n) dims /\ foldr Z.mul 1 dims = size.
Proof.
  intros Hsize. unfold Np.fix_unknown_dimension.
  pose proof (known_size_nonneg newshape) as Hknown.
  pose proof (product_inferred newshape (size / Np.known_size newshape)) as Hprod.
  destruct (filter (fun n => n < 0) newshape) as [|u [|u' us]] eqn:Hneg; [| |discriminate].
  - destruct (Z.eqb_spec (Np.known_size newshape) size) as [Heq|_]; [|discriminate].
    intros [= <-]. apply no_unknown_nil in Hneg.
    split; [exact Hneg|]. by rewrite <- known_size_all.
  - destruct (Z.eqb_spec (Np.known_size newshape) 0) as [|Hnz]; [discriminate|].
    destruct (Z.eqb_spec (size mod Np.known_size newshape) 0) as [Hmod|]; [|discriminate].
    simpl. intros [= <-]. split.
    + apply Forall_forall. intros n Hn.
      apply list_elem_of_In, in_map_iff in Hn as (n0 & <- & _).
      destruct (Z.ltb_spec n0 0); [apply Z.div_pos; lia|lia].
    + rewrite Hprod. simpl. rewrite Z.pow_1_r.
      rewrite Z.mul_comm. symmetry.
      rewrite Z.mul_comm. apply Z.div_exact; [exact Hnz|exact Hmod].
Qed.

Lemma array_data (rows : list (list float)) (a : Np.ndarray) :
  Np.array rows = Some a -> Np.nd_data a = concat rows.
Proof.
  unfold Np.array. destruct rows as [|r rows]; [intros [= <-]; reflexivity|].
  destruct (forallb _ _); [intros [= <-]; reflexivity|discriminate].
Qed.

Section ReshapeAny.

Variable self : TFTextTransformer.
Variable d : vocabulary.

Abbreviation L := (getSequenceLength self).
Abbreviation E := (getEmbeddingSize self).

(** X8. Whatever the shape is, when the encoder returns, the floats of its
    result read in order are the components of the padded vectors, row
    by row: the reshape regroups the floats and neither drops, adds nor
    reorders one. *)
Theorem encoder_keeps_elements (s : string) (v : Py.value) :
  convert_word_to_index self d s = Some v ->
  exists result, padded self d s = Some result /\ PyStr.flatten v = concat result.
Proof.
  unfold convert_word_to_index. intros Hconv.
  destruct (padded self d s) as [result|]; simpl in Hconv; [|discriminate].
  exists result. split; [reflexivity|].
  destruct (not_array_2d self).
  - unfold reshape_result in Hconv.
    destruct (Np.array result) as [a|] eqn:Ha; simpl in Hconv; [|discriminate].
    unfold Np.reshape in Hconv.
    destruct (Np.fix_unknown_dimension (getShape self) (Np.size a)) as [dims|] eqn:Hdims;
      simpl in Hconv; [|discriminate].
    injection Hconv as <-. unfold Np.tolist. simpl.
    apply fix_unknown_dimension_Some in Hdims as [Hpos Hprod]; [|unfold Np.size; lia].
    rewrite flatten_tolist_aux; [exact (array_data _ _ Ha)|exact Hpos|].
    rewrite Hprod. reflexivity.
  - injection Hconv as <-. apply flatten_of_rows.
Qed.


End ReshapeAny.

Lemma encoder_keeps_elements_witness :
  exists result,
    padded Sample2.self_2x6 Sample.vocabulary0 "cat dog" = Some result /\
    concat result = [1; 0; 0; 0; 0; 1; 0; 0; 0; 0; 0; 0]%float.
Proof.
  destruct (encoder_keeps_elements Sample2.self_2x6 Sample.vocabulary0 "cat dog"
              (Py.List [Py.List (map Py.Float [1; 0; 0; 0; 0; 1]%float);
                        Py.List (map Py.Float [0; 0; 0; 0; 0; 0]%float)]))
    as (result & Hres & Hflat).
  - vm_compute. reflexivity.
  - exists result. split; [exact Hres|]. rewrite <- Hflat. reflexivity.
Defined.


(** * Further properties of the vocabulary and of the result *)

Lemma dict_acc_lookup_notin {V} (pairs : list (string * V)) (acc : gmap string V) (k : string) :
  k ∉ pairs.*1 ->
  foldl (fun d p => <[p.1 := p.2]> d) acc pairs !! k = acc !! k.
Proof.
  revert acc. induction pairs as [|p pairs IH]; intros acc Hk; [reflexivity|].
  simpl in *. apply not_elem_of_cons in Hk as [Hne Hk].
  rewrite (IH _ Hk). apply lookup_insert_ne. congruence.
Qed.

(** In [dict(pairs)] a key has the value of its last pair. *)
Lemma dict_lookup_last {V} (pre post : list (string * V)) (k : string) (v : V) :
  k ∉ post.*1 -> Py.dict (pre ++ (k, v) :: post) !! k = Some v.
Proof.
  intros Hk. unfold Py.dict. rewrite foldl_app. simpl.
  rewrite (dict_acc_lookup_notin _ _ _ Hk). apply lookup_insert_eq.
Qed.

Section TrainedVectors.

Variable self : TFTextTransformer.
Variable vectors : list (string * list float).

(** X10. The vocabulary keeps, for every trained word other than ["unk"], the
    vector of the word's last pair, and has no entry for a word that is
    neither trained nor ["unk"].  (A trained vector for ["unk"] is
    replaced by the zero vector.) *)
Theorem trained_vector_lookup (we : vocabulary) (word : string) :
  word_embedding self vectors = Some we ->
  word <> "unk" ->
  (forall pre v post, vectors = pre ++ (word, v) :: post -> word ∉ post.*1 ->
     we !! word = Some v) /\
  (word ∉ vectors.*1 -> we !! word = None).
Proof.
  intros Hwe Hne. apply word_embedding_Some in Hwe as [_ ->].
  rewrite lookup_insert_ne by congruence. split.
  - intros pre v post -> Hlast. exact (dict_lookup_last pre post word v Hlast).
  - intros Hout. apply eq_None_not_Some. intros Hsome.
    apply Hout, dict_lookup_is_Some. exact Hsome.
Qed.

End TrainedVectors.

Lemma trained_vector_lookup_witness :
  Sample.vocabulary_unk !! "dog" = Some Sample.dog.
Proof.
  refine (proj1 (trained_vector_lookup Sample.self Sample.vectors Sample.vocabulary_unk "dog"
                   _ _) [("cat", Sample.cat)] Sample.dog [] _ _).
  - vm_compute. reflexivity.
  - discriminate.
  - reflexivity.
  - apply not_elem_of_nil.
Defined.

Section Frame.

Variable resolver : string -> string -> bool.
Variable self : TFTextTransformer.
Variable vectors : list (string * list float).

Lemma withColumn_frame (df : Spark.DataFrame) colName col j f :
  Spark.well_formed df ->
  Spark.columns df !! j = Some f ->
  resolver f colName = false ->
  Spark.columns (Spark.withColumn resolver df colName col) !! j = Some f /\
  map (fun r => r !! j) (Spark.rows (Spark.withColumn resolver df colName col))
  = map (fun r => r !! j) (Spark.rows df).
Proof.
  intros Hwf Hj Hres. split; [exact (withColumn_keeps resolver df colName col j f Hj Hres)|].
  unfold Spark.withColumn. destruct (existsb _ _); simpl; rewrite map_map;
    apply map_ext_in; intros r Hr; apply list_elem_of_In in Hr;
    pose proof (proj1 (Forall_forall _ _) Hwf r Hr) as Hlen; simpl in Hlen.
  - rewrite lookup_zip_with, Hj. simpl.
    destruct (r !! j); simpl; [rewrite Hres|]; reflexivity.
  - apply lookup_app_l. rewrite Hlen. apply lookup_lt_is_Some. eauto.
Qed.

(** X11. Whatever the names of the columns are, a column of the input that
    matches none of the output column, [vocab_size] and [embedding_size]
    is a column of the result, at the same place and with the same cell
    in every row; in particular the result has the rows of the input, in
    their order. *)
Theorem transform_keeps_other_columns (dataset out : Spark.DataFrame) (j : nat) (f : string) :
  Spark.well_formed dataset ->
  _transform resolver self vectors dataset = Some out ->
  Spark.columns dataset !! j = Some f ->
  resolver f (getOutputCol self) = false ->
  resolver f VOCAB_SIZE = false ->
  resolver f EMBEDDING_SIZE = false ->
  Spark.columns out !! j = Some f /\
  map (fun r => r !! j) (Spark.rows out) = map (fun r => r !! j) (Spark.rows dataset).
Proof.
  intros Hwf Htr Hj Ho Hv He. unfold _transform in Htr.
  destruct (Spark.resolve resolver dataset (getInputCol self)) as [i|];
    simpl in Htr; [|discriminate].
  destruct (word_embedding self vectors) as [we|]; simpl in Htr; [|discriminate].
  injection Htr as <-.
  set (c1 := cwti_udf self we i). set (c2 := Spark.lit (Spark.Int (Z.of_nat _))).
  set (c3 := Spark.lit (Spark.Int (getEmbeddingSize self))).
  destruct (withColumn_frame dataset (getOutputCol self) c1 j f Hwf Hj Ho) as [Hj1 Hr1].
  pose proof (withColumn_well_formed resolver dataset (getOutputCol self) c1 Hwf) as Hwf1.
  destruct (withColumn_frame _ VOCAB_SIZE c2 j f Hwf1 Hj1 Hv) as [Hj2 Hr2].
  pose proof (withColumn_well_formed resolver _ VOCAB_SIZE c2 Hwf1) as Hwf2.
  destruct (withColumn_frame _ EMBEDDING_SIZE c3 j f Hwf2 Hj2 He) as [Hj3 Hr3].
  split; [exact Hj3|]. rewrite Hr3, Hr2, Hr1. reflexivity.
Qed.

(** X12. The column [embedding_size] exists and holds the embedding size in
    every row. *)
Theorem embedding_size_column (dataset out : Spark.DataFrame) :
  resolver EMBEDDING_SIZE EMBEDDING_SIZE = true ->
  Spark.well_formed dataset ->
  _transform resolver self vectors dataset = Some out ->
  (exists j, Spark.columns out !! j = Some EMBEDDING_SIZE) /\
  (forall j r, Spark.columns out !! j = Some EMBEDDING_SIZE -> r ∈ Spark.rows out ->
     r !! j = Some (Spark.Int (getEmbeddingSize self))).
Proof.
  intros Hrefl Hwf Htr. unfold _transform in Htr.
  destruct (Spark.resolve resolver dataset (getInputCol self)) as [i|];
    simpl in Htr; [|discriminate].
  destruct (word_embedding self vectors) as [we|]; simpl in Htr; [|discriminate].
  injection Htr as <-.
  set (s2 := Spark.withColumn resolver (Spark.withColumn resolver dataset _ _) VOCAB_SIZE _).
  assert (Hwf2 : Spark.well_formed s2) by (do 2 apply withColumn_well_formed; exact Hwf).
  split; [apply withColumn_named|].
  intros j r Hj Hr.
  destruct (withColumn_value _ _ _ _ _ _ _ Hwf2 Hj Hrefl Hr) as (r2 & _ & ->).
  reflexivity.
Qed.

End Frame.

Lemma transform_keeps_other_columns_witness :
  exists out,
    _transform String.eqb Sample.self_clash Sample.vectors Sample.dataset = Some out /\
    map (fun r => r !! 0%nat) (Spark.rows out)
    = [Some (Spark.Str "cat dog bird"); Some (Spark.Str "cat dog cat dog")].
Proof.
  eexists. split; [vm_compute; reflexivity|].
  refine (proj2 (transform_keeps_other_columns String.eqb Sample.self_clash Sample.vectors
                   Sample.dataset _ 0%nat "text" sample_dataset_well_formed _ _ _ _ _)).
  - vm_compute. reflexivity.
  - reflexivity.
  - reflexivity.
  - reflexivity.
  - reflexivity.
Defined.

Lemma embedding_size_column_witness :
  exists out,
    _transform String.eqb Sample.self Sample.vectors Sample.dataset = Some out /\
    Forall (fun r => r !! 3%nat = Some (Spark.Int 4)) (Spark.rows out).
Proof.
  eexists. split; [vm_compute; reflexivity|].
  apply Forall_forall. intros r Hr.
  refine (proj2 (embedding_size_column String.eqb Sample.self Sample.vectors Sample.dataset
                   _ _ sample_dataset_well_formed _) 3%nat r _ Hr).
  - reflexivity.
  - vm_compute. reflexivity.
  - reflexivity.
Defined.

(** * The params: the default shape *)

(** [__init__] never raises; it leaves the defaults of lines 100-103 and
    the user's keyword arguments. *)
Lemma init_params (kwargs : param_map) :
  __init__ kwargs = Some
    {| _paramMap := update_params kwargs no_params;
       _defaultParamMap :=
         {| pm_inputCol := None; pm_outputCol := None;
            pm_textAnalysisParams := Some ∅; pm_shape := Some [64; 100];
            pm_embeddingSize := Some 100; pm_sequenceLength := Some 64 |} |}.
Proof. reflexivity. Qed.

(** X13. The default shape is [(64, 100)] whatever sequence length and
    embedding size the constructor is given: the shape of a transformer
    is the [shape] argument of the constructor or, without one,
    [(64, 100)]; [setShape] replaces it and leaves the sequence length
    and the embedding size as they are. *)
Theorem shape_param (kwargs : param_map) (self : Params) :
  __init__ kwargs = Some self ->
  getOrDefault pm_shape self = Some (default [64; 100] (pm_shape kwargs)) /\
  getOrDefault pm_sequenceLength self = Some (default 64 (pm_sequenceLength kwargs)) /\
  getOrDefault pm_embeddingSize self = Some (default 100 (pm_embeddingSize kwargs)) /\
  forall value,
    getOrDefault pm_shape (setShape value self) = Some value /\
    getOrDefault pm_sequenceLength (setShape value self) = getOrDefault pm_sequenceLength self /\
    getOrDefault pm_embeddingSize (setShape value self) = getOrDefault pm_embeddingSize self.
Proof.
  rewrite init_params. intros [= <-].
  destruct kwargs as [ic oc ta sh es sl]. unfold getOrDefault, setShape. simpl.
  repeat split; try (destruct sh; reflexivity); try (destruct sl; reflexivity);
    destruct es; reflexivity.
Qed.

Lemma shape_param_witness :
  exists self, __init__ Sample2.kwargs = Some self /\
    getOrDefault pm_shape self = Some [64; 100] /\
    getOrDefault pm_sequenceLength self = Some 3.
Proof.
  eexists. split; [reflexivity|].
  destruct (shape_param Sample2.kwargs _ eq_refl) as (Hshape & Hlen & _).
  split; [exact Hshape|exact Hlen].
Defined.




(** * The dictionary archives *)

Example zipfiles_sample : zipfiles Sample2.conf Sample2.textAnalysisParams = None.
Proof. vm_compute. reflexivity. Qed.


(** * Checks of the Spark model *)

Example resolve_dotted_name :
  Spark.resolve String.eqb {| Spark.columns := ["my.text"]; Spark.rows := [] |} "my.text"
  = None.
Proof. reflexivity. Qed.

Example resolve_quoted_name :
  Spark.resolve String.eqb {| Spark.columns := ["my.text"]; Spark.rows := [] |} "`my.text`"
  = Some 0%nat.
Proof. reflexivity. Qed.

Example fromPython_nested_under_flat :
  Spark.fromPython (Spark.ArrayType Spark.FloatType)
    (Py.of_rows [Sample.cat; Sample.dog])
  = Spark.DArray [Spark.DNull; Spark.DNull].
Proof. reflexivity. Qed.

Example fromPython_narrows :
  Spark.fromPython (Spark.ArrayType Spark.FloatType) (Py.List [Py.Float 0x1.999999999999ap-4])
  = Spark.DArray [Spark.DFloat 0x1.99999ap-4].
Proof. vm_compute. reflexivity. Qed.

Example cwti_udf_2x6 :
  cwti_udf Sample2.self_2x6 Sample.vocabulary0 0 [Spark.Str "cat dog"]
  = Spark.Array (Spark.DArray [Spark.DNull; Spark.DNull]).
Proof. vm_compute. reflexivity. Qed.
